(** * core-js-101, [src/05-objects-tasks.js]: objects and the CSS selector builder

    A shallow embedding of [Rectangle], of the class [CSSSelector] and of the
    facade [cssSelectorBuilder], followed by the properties of the
    specification that were checked against them.

    JavaScript strings are modelled as [string], arrays of strings as
    [list string] ([push] appends at the end), numbers used as small
    counters as [nat], and the numbers handled by [Rectangle] as binary64
    floats.  A method of [CSSSelector] mutates [this] and may throw; a thrown
    error does not undo the assignments made before it, so a method is a
    function from the object to a completion together with the object as the
    method left it. *)

From Stdlib Require Import String Ascii List Arith Bool Lia Sorted.
From Stdlib Require Import Floats.PrimFloat.
Import ListNotations.
Open Scope string_scope.

Set Implicit Arguments.

(** ** JavaScript primitives *)

(** [if (s)] on a string: every string but the empty one is truthy. *)
Definition truthy (s : string) : bool :=
  match s with
  | EmptyString => false
  | String _ _ => true
  end.

(** [Array.prototype.join] on an array of strings. *)
Fixpoint join (sep : string) (l : list string) : string :=
  match l with
  | [] => ""
  | x :: rest =>
      match rest with
      | [] => x
      | _ :: _ => x ++ sep ++ join sep rest
      end
  end.

(** [arr.length > 0]. *)
Definition nonempty (l : list string) : bool := (0 <? List.length l)%nat.

(** ** Completions: a call returns normally or throws [new Error(message)] *)

Inductive completion (A : Type) : Type :=
| Normal (a : A)
| Throw (message : string).

Arguments Normal {A} a.
Arguments Throw {A} message.

Definition is_normal {A} (c : completion A) : bool :=
  match c with Normal _ => true | Throw _ => false end.

(** Sequencing of expressions that may throw (evaluation order of
    arguments, chained calls on a returned object). *)
Definition cbind {A B} (c : completion A) (k : A -> completion B) : completion B :=
  match c with
  | Normal a => k a
  | Throw m => Throw m
  end.

(** The two messages the builder throws.  The specification calls an error
    with the first message [DuplicateFragmentError] and one with the second
    [OutOfOrderError]. *)
Definition DuplicateFragmentError : string :=
  "Element, id and pseudo-element should not occur more then one time inside the selector".

Definition OutOfOrderError : string :=
  "Selector parts should be arranged in the following order: element, id, class, attribute, pseudo-class, pseudo-element".

(** ** Rectangle *)

Module Rect.

(** The object literal built by [Rectangle]: two data properties and a
    function property. *)
Record rectangle : Type := mkRectangle {
  width : float;
  height : float;
  getArea : unit -> float
}.

(** [function Rectangle(width, height)]: [getArea] closes over the
    parameters, not over the properties of the object. *)
Definition Rectangle (width height : float) : rectangle :=
  {| width := width;
     height := height;
     getArea := fun _ => PrimFloat.mul width height |}.

(** [r.width = x] and [r.height = y] on a rectangle object. *)
Definition set_width (x : float) (r : rectangle) : rectangle :=
  {| width := x; height := height r; getArea := getArea r |}.

Definition set_height (y : float) (r : rectangle) : rectangle :=
  {| width := width r; height := y; getArea := getArea r |}.

(** A run of such assignments. *)
Inductive assignment : Type :=
| AssignWidth (x : float)
| AssignHeight (y : float).

Definition assign (r : rectangle) (a : assignment) : rectangle :=
  match a with
  | AssignWidth x => set_width x r
  | AssignHeight y => set_height y r
  end.

End Rect.

(** ** The class CSSSelector *)

Module CSSSelector.

(** The fields set by the constructor, and [own_stringify]: the own
    property [stringify] that [combine] puts on the object it returns
    (absent on every other instance, which then finds the method of the
    class). *)
Record CSSSelector : Type := mkCSSSelector {
  elementValue : string;
  idValue : string;
  classValues : list string;
  attrValues : list string;
  pseudoClassValues : list string;
  pseudoElementValue : string;
  priority : nat;
  own_stringify : option (unit -> string)
}.

(** [constructor()]. *)
Definition constructor : CSSSelector :=
  {| elementValue := "";
     idValue := "";
     classValues := [];
     attrValues := [];
     pseudoClassValues := [];
     pseudoElementValue := "";
     priority := 0;
     own_stringify := None |}.

(** A method body: from [this] to its completion and [this] afterwards. *)
Definition method (A : Type) : Type := CSSSelector -> completion A * CSSSelector.

Definition ret {A} (a : A) : method A := fun this => (Normal a, this).

Definition throw {A} (message : string) : method A := fun this => (Throw message, this).

Definition bind {A B} (m : method A) (k : A -> method B) : method B :=
  fun this =>
    match m this with
    | (Normal a, this') => k a this'
    | (Throw e, this') => (Throw e, this')
    end.

Definition read {A} (field : CSSSelector -> A) : method A :=
  fun this => (Normal (field this), this).

Definition update (f : CSSSelector -> CSSSelector) : method unit :=
  fun this => (Normal tt, f this).

Declare Scope method_scope.
Delimit Scope method_scope with method.
Notation "x <- m ;; k" := (bind m (fun x => k))
  (at level 61, m at next level, right associativity) : method_scope.
Notation "m ;; k" := (bind m (fun _ => k))
  (at level 61, right associativity) : method_scope.
Local Open Scope method_scope.

(** Assignments to the fields of [this]. *)
Definition set_elementValue (v : string) (o : CSSSelector) : CSSSelector :=
  {| elementValue := v; idValue := idValue o; classValues := classValues o;
     attrValues := attrValues o; pseudoClassValues := pseudoClassValues o;
     pseudoElementValue := pseudoElementValue o; priority := priority o;
     own_stringify := own_stringify o |}.

Definition set_idValue (v : string) (o : CSSSelector) : CSSSelector :=
  {| elementValue := elementValue o; idValue := v; classValues := classValues o;
     attrValues := attrValues o; pseudoClassValues := pseudoClassValues o;
     pseudoElementValue := pseudoElementValue o; priority := priority o;
     own_stringify := own_stringify o |}.

Definition push_classValues (v : string) (o : CSSSelector) : CSSSelector :=
  {| elementValue := elementValue o; idValue := idValue o;
     classValues := classValues o ++ [v];
     attrValues := attrValues o; pseudoClassValues := pseudoClassValues o;
     pseudoElementValue := pseudoElementValue o; priority := priority o;
     own_stringify := own_stringify o |}.

Definition push_attrValues (v : string) (o : CSSSelector) : CSSSelector :=
  {| elementValue := elementValue o; idValue := idValue o;
     classValues := classValues o;
     attrValues := attrValues o ++ [v];
     pseudoClassValues := pseudoClassValues o;
     pseudoElementValue := pseudoElementValue o; priority := priority o;
     own_stringify := own_stringify o |}.

Definition push_pseudoClassValues (v : string) (o : CSSSelector) : CSSSelector :=
  {| elementValue := elementValue o; idValue := idValue o;
     classValues := classValues o; attrValues := attrValues o;
     pseudoClassValues := pseudoClassValues o ++ [v];
     pseudoElementValue := pseudoElementValue o; priority := priority o;
     own_stringify := own_stringify o |}.

Definition set_pseudoElementValue (v : string) (o : CSSSelector) : CSSSelector :=
  {| elementValue := elementValue o; idValue := idValue o;
     classValues := classValues o; attrValues := attrValues o;
     pseudoClassValues := pseudoClassValues o;
     pseudoElementValue := v; priority := priority o;
     own_stringify := own_stringify o |}.

Definition set_priority (p : nat) (o : CSSSelector) : CSSSelector :=
  {| elementValue := elementValue o; idValue := idValue o;
     classValues := classValues o; attrValues := attrValues o;
     pseudoClassValues := pseudoClassValues o;
     pseudoElementValue := pseudoElementValue o; priority := p;
     own_stringify := own_stringify o |}.

Definition set_stringify (f : unit -> string) (o : CSSSelector) : CSSSelector :=
  {| elementValue := elementValue o; idValue := idValue o;
     classValues := classValues o; attrValues := attrValues o;
     pseudoClassValues := pseudoClassValues o;
     pseudoElementValue := pseudoElementValue o; priority := priority o;
     own_stringify := Some f |}.

(** [checkOrder(priority)]. *)
Definition checkOrder (p : nat) : method unit :=
  cur <- read priority ;;
  if (cur <=? p)%nat then update (set_priority p)
  else throw OutOfOrderError.

(** The six fragment methods.  Each ends in [return this]: the object
    returned is the receiver, so the value of the method is left out and
    a chain of calls is a sequence of methods on one object. *)
Definition element (value : string) : method unit :=
  cur <- read elementValue ;;
  if truthy cur then throw DuplicateFragmentError
  else (update (set_elementValue value) ;; checkOrder 1).

Definition id (value : string) : method unit :=
  cur <- read idValue ;;
  if truthy cur then throw DuplicateFragmentError
  else (update (set_idValue value) ;; checkOrder 2).

Definition class (value : string) : method unit :=
  update (push_classValues value) ;; checkOrder 3.

Definition attr (value : string) : method unit :=
  update (push_attrValues value) ;; checkOrder 4.

Definition pseudoClass (value : string) : method unit :=
  update (push_pseudoClassValues value) ;; checkOrder 5.

Definition pseudoElement (value : string) : method unit :=
  cur <- read pseudoElementValue ;;
  if truthy cur then throw DuplicateFragmentError
  else (update (set_pseudoElementValue value) ;; checkOrder 6).

(** [stringify()] of the class. *)
Definition stringify : method string :=
  let result := "" in
  e <- read elementValue ;;
  let result := if truthy e then result ++ e else result in
  i <- read idValue ;;
  let result := if truthy i then result ++ "#" ++ i else result in
  cs <- read classValues ;;
  let result := if nonempty cs then result ++ "." ++ join "." cs else result in
  ats <- read attrValues ;;
  let result := if nonempty ats then result ++ "[" ++ join "][" ats ++ "]" else result in
  pcs <- read pseudoClassValues ;;
  let result := if nonempty pcs then result ++ ":" ++ join ":" pcs else result in
  pe <- read pseudoElementValue ;;
  let result := if truthy pe then result ++ "::" ++ pe else result in
  ret result.

(** The call [selector.stringify()]: the own property when the object has
    one, the method of the class otherwise. *)
Definition call_stringify : method string :=
  own <- read own_stringify ;;
  match own with
  | Some f => ret (f tt)
  | None => stringify
  end.

(** The completion of the expression [selector.stringify()]. *)
Definition render (o : CSSSelector) : completion string := fst (call_stringify o).

(** The value of the expression [selector.m(v)] for a fragment method [m]:
    the receiver, as the method left it, when the method returns. *)
Definition call_on (selector : CSSSelector) (m : method unit) : completion CSSSelector :=
  match m selector with
  | (Normal _, this) => Normal this
  | (Throw e, _) => Throw e
  end.

End CSSSelector.

Import CSSSelector(CSSSelector, method, constructor, render, call_on).

Declare Scope chain_scope.
Delimit Scope chain_scope with chain.
(** [e ~> m]: the chained call [e.m(v)] on the object the expression [e]
    evaluates to. *)
Notation "e ~> m" := (cbind e (fun selector => call_on selector m))
  (at level 50, left associativity) : chain_scope.
Open Scope chain_scope.

(** ** The facade cssSelectorBuilder *)

Module cssSelectorBuilder.

Definition element (value : string) : completion CSSSelector :=
  let selector := constructor in
  call_on selector (CSSSelector.element value).

Definition id (value : string) : completion CSSSelector :=
  let selector := constructor in
  call_on selector (CSSSelector.id value).

Definition class (value : string) : completion CSSSelector :=
  let selector := constructor in
  call_on selector (CSSSelector.class value).

Definition attr (value : string) : completion CSSSelector :=
  let selector := constructor in
  call_on selector (CSSSelector.attr value).

Definition pseudoClass (value : string) : completion CSSSelector :=
  let selector := constructor in
  call_on selector (CSSSelector.pseudoClass value).

Definition pseudoElement (value : string) : completion CSSSelector :=
  let selector := constructor in
  call_on selector (CSSSelector.pseudoElement value).

(** [combine(selector1, combinator, selector2)]: the template string is
    evaluated first, then a new instance gets an own [stringify] that
    returns it. *)
Definition combine (selector1 : CSSSelector) (combinator : string)
           (selector2 : CSSSelector) : completion CSSSelector :=
  cbind (render selector1) (fun s1 =>
  cbind (render selector2) (fun s2 =>
    let result := s1 ++ " " ++ combinator ++ " " ++ s2 in
    let selector := constructor in
    let selector := CSSSelector.set_stringify (fun _ => result) selector in
    Normal selector)).

(** [combine(e1, combinator, e2)] with argument expressions that may
    throw, evaluated from left to right. *)
Definition combine_of (e1 : completion CSSSelector) (combinator : string)
           (e2 : completion CSSSelector) : completion CSSSelector :=
  cbind e1 (fun selector1 =>
  cbind e2 (fun selector2 =>
    combine selector1 combinator selector2)).

End cssSelectorBuilder.

(** ** Fragment calls as data *)

Inductive kind : Type :=
| Element | Id | Class | Attr | PseudoClass | PseudoElement.

(** The constant each method passes to [checkOrder]. *)
Definition rank (k : kind) : nat :=
  match k with
  | Element => 1
  | Id => 2
  | Class => 3
  | Attr => 4
  | PseudoClass => 5
  | PseudoElement => 6
  end.

(** The kinds whose method starts with the test for an earlier value. *)
Definition singular (k : kind) : bool :=
  match k with
  | Element | Id | PseudoElement => true
  | Class | Attr | PseudoClass => false
  end.

Definition kind_eqb (k1 k2 : kind) : bool := Nat.eqb (rank k1) (rank k2).

(** A fragment call: the method and its argument. *)
Definition fragment : Type := (kind * string)%type.

Definition invoke (c : fragment) : method unit :=
  match fst c with
  | Element => CSSSelector.element (snd c)
  | Id => CSSSelector.id (snd c)
  | Class => CSSSelector.class (snd c)
  | Attr => CSSSelector.attr (snd c)
  | PseudoClass => CSSSelector.pseudoClass (snd c)
  | PseudoElement => CSSSelector.pseudoElement (snd c)
  end.

(** The test [if (this.xValue) throw ...] at the head of a method. *)
Definition is_duplicate (k : kind) (o : CSSSelector) : bool :=
  match k with
  | Element => truthy (CSSSelector.elementValue o)
  | Id => truthy (CSSSelector.idValue o)
  | PseudoElement => truthy (CSSSelector.pseudoElementValue o)
  | Class | Attr | PseudoClass => false
  end.

(** The assignment or [push] a method makes before it calls [checkOrder]. *)
Definition store (c : fragment) (o : CSSSelector) : CSSSelector :=
  match fst c with
  | Element => CSSSelector.set_elementValue (snd c) o
  | Id => CSSSelector.set_idValue (snd c) o
  | Class => CSSSelector.push_classValues (snd c) o
  | Attr => CSSSelector.push_attrValues (snd c) o
  | PseudoClass => CSSSelector.push_pseudoClassValues (snd c) o
  | PseudoElement => CSSSelector.set_pseudoElementValue (snd c) o
  end.

(** A chain [o.m1(v1).m2(v2)...]: the first throw ends it. *)
Fixpoint chain (cs : list fragment) : method unit :=
  match cs with
  | [] => CSSSelector.ret tt
  | c :: rest => CSSSelector.bind (invoke c) (fun _ => chain rest)
  end.

(** Calls made one statement at a time on an object the caller holds, each
    error caught: the object after all of them. *)
Definition attempt (o : CSSSelector) (c : fragment) : CSSSelector := snd (invoke c o).

Definition attempts (cs : list fragment) (o : CSSSelector) : CSSSelector :=
  fold_left attempt cs o.

(** Of such calls, those that returned: the fragments added to the builder. *)
Fixpoint accepted (cs : list fragment) (o : CSSSelector) : list fragment :=
  match cs with
  | [] => []
  | c :: rest =>
      (if is_normal (fst (invoke c o)) then [c] else [])
      ++ accepted rest (attempt o c)
  end.

(** The highest rank among a list of fragments, 0 for none. *)
Definition highest_rank (cs : list fragment) : nat :=
  list_max (map (fun c => rank (fst c)) cs).

(** The arguments of the calls of kind [k], in call order. *)
Definition values (k : kind) (cs : list fragment) : list string :=
  map snd (filter (fun c => kind_eqb (fst c) k) cs).

(** Non-decreasing ranks along a sequence of calls. *)
Fixpoint ordered_from (p : nat) (cs : list fragment) : bool :=
  match cs with
  | [] => true
  | c :: rest => (p <=? rank (fst c))%nat && ordered_from (rank (fst c)) rest
  end.

Definition ordered (cs : list fragment) : bool := ordered_from 0 cs.

(** Element, id and pseudo-element each called at most once. *)
Definition at_most_once (k : kind) (cs : list fragment) : bool :=
  (List.length (values k cs) <=? 1)%nat.

Definition singular_once (cs : list fragment) : bool :=
  at_most_once Element cs && at_most_once Id cs && at_most_once PseudoElement cs.

(** ** The rendering the specification describes *)

Definition concat_map (f : string -> string) (l : list string) : string :=
  fold_right (fun v acc => f v ++ acc) "" l.

(** The specification's [render()], read off the calls: the element as it
    is, the id after [#], each class after [.], each attribute between
    brackets, each pseudo-class after [:], the pseudo-element after [::];
    groups in kind order, entries in call order, nothing for a group
    without entries. *)
Definition spec_render (cs : list fragment) : string :=
  concat_map (fun v => v) (values Element cs)
  ++ concat_map (fun v => "#" ++ v) (values Id cs)
  ++ concat_map (fun v => "." ++ v) (values Class cs)
  ++ concat_map (fun v => "[" ++ v ++ "]") (values Attr cs)
  ++ concat_map (fun v => ":" ++ v) (values PseudoClass cs)
  ++ concat_map (fun v => "::" ++ v) (values PseudoElement cs).

(** The same with the empty string as id or pseudo-element counted as no
    entry. *)
Definition code_render (cs : list fragment) : string :=
  concat_map (fun v => v) (values Element cs)
  ++ concat_map (fun v => "#" ++ v) (filter truthy (values Id cs))
  ++ concat_map (fun v => "." ++ v) (values Class cs)
  ++ concat_map (fun v => "[" ++ v ++ "]") (values Attr cs)
  ++ concat_map (fun v => ":" ++ v) (values PseudoClass cs)
  ++ concat_map (fun v => "::" ++ v) (filter truthy (values PseudoElement cs)).

(** The object after a fragment call that returned: the value stored and
    the priority raised to the call's rank. *)
Definition accept (o : CSSSelector) (c : fragment) : CSSSelector :=
  CSSSelector.set_priority (rank (fst c)) (store c o).

(** What is left of the at-most-once allowance of a singular kind: the calls
    of that kind still to come, plus one if a value is stored already. *)
Definition pending (k : kind) (o : CSSSelector) (cs : list fragment) : nat :=
  List.length (values k cs) + (if is_duplicate k o then 1 else 0).

(** The text [stringify()] of the class builds, group by group. *)
Definition text (o : CSSSelector) : string :=
  (if truthy (CSSSelector.elementValue o) then CSSSelector.elementValue o else "")
  ++ (if truthy (CSSSelector.idValue o) then "#" ++ CSSSelector.idValue o else "")
  ++ concat_map (fun v => "." ++ v) (CSSSelector.classValues o)
  ++ concat_map (fun v => "[" ++ v ++ "]") (CSSSelector.attrValues o)
  ++ concat_map (fun v => ":" ++ v) (CSSSelector.pseudoClassValues o)
  ++ (if truthy (CSSSelector.pseudoElementValue o) then "::" ++ CSSSelector.pseudoElementValue o else "").

(** [n] calls of [selector.stringify()] in a row, with the strings they
    return. *)
Fixpoint renders (n : nat) : method (list string) :=
  match n with
  | O => CSSSelector.ret []
  | S n' =>
      CSSSelector.bind CSSSelector.call_stringify (fun s =>
      CSSSelector.bind (renders n') (fun rest =>
      CSSSelector.ret (s :: rest)))
  end.

(** The double quote, for the attribute values of the examples. *)
Definition dquote : string := String "034"%char "".

(** The three expressions of the examples in the source's header comment. *)
Definition example1 : completion string :=
  cbind (cssSelectorBuilder.id "main"
           ~> CSSSelector.class "container"
           ~> CSSSelector.class "editable") render.

Definition example2 : completion string :=
  cbind (cssSelectorBuilder.element "a"
           ~> CSSSelector.attr ("href$=" ++ dquote ++ ".png" ++ dquote)
           ~> CSSSelector.pseudoClass "focus") render.

Definition example3 : completion string :=
  cbind
    (cssSelectorBuilder.combine_of
       (cssSelectorBuilder.element "div"
          ~> CSSSelector.id "main"
          ~> CSSSelector.class "container"
          ~> CSSSelector.class "draggable")
       "+"
       (cssSelectorBuilder.combine_of
          (cssSelectorBuilder.element "table" ~> CSSSelector.id "data")
          "~"
          (cssSelectorBuilder.combine_of
             (cssSelectorBuilder.element "tr" ~> CSSSelector.pseudoClass "nth-of-type(even)")
             " "
             (cssSelectorBuilder.element "td" ~> CSSSelector.pseudoClass "nth-of-type(even)"))))
    render.

(** ** Criteria read off a sequence of calls *)

(** Every entry but the last is the empty string. *)
Fixpoint all_but_last_empty (l : list string) : bool :=
  match l with
  | [] => true
  | x :: rest =>
      match rest with
      | [] => true
      | _ :: _ => negb (truthy x) && all_but_last_empty rest
      end
  end.

(** The first non-empty entry, the empty string when there is none. *)
Definition first_truthy (l : list string) : string := hd "" (filter truthy l).

(** The test a chain on [o] passes when no call of it throws: ranks that do
    not go down from the priority, and for element, id and pseudo-element no
    call after a non-empty value is stored. *)
Definition chain_returns (o : CSSSelector) (cs : list fragment) : bool :=
  ordered_from (CSSSelector.priority o) cs
  && all_but_last_empty (CSSSelector.elementValue o :: values Element cs)
  && all_but_last_empty (CSSSelector.idValue o :: values Id cs)
  && all_but_last_empty (CSSSelector.pseudoElementValue o :: values PseudoElement cs).

(** The text the facade's entry point of kind [k] renders for [v]. *)
Definition single_fragment (k : kind) (v : string) : string :=
  match k with
  | Element => v
  | Id => if truthy v then "#" ++ v else ""
  | Class => "." ++ v
  | Attr => "[" ++ v ++ "]"
  | PseudoClass => ":" ++ v
  | PseudoElement => if truthy v then "::" ++ v else ""
  end.

(** The facade's entry point of kind [k]. *)
Definition facade (k : kind) (v : string) : completion CSSSelector :=
  match k with
  | Element => cssSelectorBuilder.element v
  | Id => cssSelectorBuilder.id v
  | Class => cssSelectorBuilder.class v
  | Attr => cssSelectorBuilder.attr v
  | PseudoClass => cssSelectorBuilder.pseudoClass v
  | PseudoElement => cssSelectorBuilder.pseudoElement v
  end.

(** What [stringify()] shows after a history of calls whose errors were
    caught: for each of element, id and pseudo-element the first non-empty
    argument, and every argument of the other three kinds. *)
Definition history_render (cs : list fragment) : string :=
  single_fragment Element (first_truthy (values Element cs))
  ++ single_fragment Id (first_truthy (values Id cs))
  ++ concat_map (fun v => "." ++ v) (values Class cs)
  ++ concat_map (fun v => "[" ++ v ++ "]") (values Attr cs)
  ++ concat_map (fun v => ":" ++ v) (values PseudoClass cs)
  ++ single_fragment PseudoElement (first_truthy (values PseudoElement cs)).

(** * Properties *)

(** ** Rectangle *)

Section RectangleFacts.
Import Rect.

Lemma assign_getArea r a : getArea (assign r a) = getArea r.
Proof. destruct a; reflexivity. Qed.

Lemma assigns_getArea l : forall r, getArea (fold_left assign l r) = getArea r.
Proof.
  induction l as [|a l IH]; intro r; simpl.
  - reflexivity.
  - rewrite IH. apply assign_getArea.
Qed.

(** The run of the source's header comment: [new Rectangle(10,20)]. *)
Example Rectangle_10_20 :
  width (Rectangle 10 20) = 10%float
  /\ height (Rectangle 10 20) = 20%float
  /\ getArea (Rectangle 10 20) tt = 200%float.
Proof. repeat split. Qed.

(** C10: [Rectangle(w, h)] returns an object whose [width] is [w], whose
    [height] is [h] and whose [getArea()] returns [w * h]; [getArea] reads
    the constructor's arguments, so after any run of assignments to the
    object's [width] and [height] it still returns the product of the
    original [w] and [h]. *)
Theorem Rectangle_closure_area (w h : float) :
  width (Rectangle w h) = w
  /\ height (Rectangle w h) = h
  /\ getArea (Rectangle w h) tt = PrimFloat.mul w h
  /\ forall l : list assignment,
       getArea (fold_left assign l (Rectangle w h)) tt = PrimFloat.mul w h.
Proof.
  repeat split.
  intro l. rewrite assigns_getArea. reflexivity.
Qed.

(** A reassigned rectangle whose fields no longer match its area. *)
Example Rectangle_reassigned :
  let r := set_height 7 (set_width 3 (Rectangle 10 20)) in
  width r = 3%float /\ height r = 7%float /\ getArea r tt = 200%float.
Proof. repeat split. Qed.

End RectangleFacts.

(** ** The worked examples *)

(** C6: the three examples of the specification render the stated strings:
    ["#main.container.editable"], [a[href$=".png"]:focus], and the nested
    combination with three spaces where the descendant combinator stands. *)
Theorem worked_examples :
  example1 = Normal "#main.container.editable"
  /\ example2 = Normal ("a[href$=" ++ dquote ++ ".png" ++ dquote ++ "]:focus")
  /\ example3 =
       Normal "div#main.container.draggable + table#data ~ tr:nth-of-type(even)   td:nth-of-type(even)".
Proof. repeat split; vm_compute; reflexivity. Qed.

(** ** Strings and [join] *)

Lemma append_nil_r (s : string) : s ++ "" = s.
Proof. induction s as [|a s IH]; simpl; [reflexivity | now rewrite IH]. Qed.

Lemma append_assoc (s t u : string) : (s ++ t) ++ u = s ++ t ++ u.
Proof. induction s as [|a s IH]; simpl; [reflexivity | now rewrite IH]. Qed.

Lemma append_if_r (b : bool) (r x : string) :
  (if b then r ++ x else r) = r ++ (if b then x else "").
Proof. destruct b; [reflexivity | now rewrite append_nil_r]. Qed.

Lemma errors_differ : String.eqb DuplicateFragmentError OutOfOrderError = false.
Proof. reflexivity. Qed.

Lemma errors_neq : DuplicateFragmentError <> OutOfOrderError.
Proof. apply String.eqb_neq. exact errors_differ. Qed.

Lemma Throw_inj (A : Type) (m1 m2 : string) :
  @Throw A m1 = Throw m2 -> m1 = m2.
Proof. intro H. injection H as H. exact H. Qed.

Lemma Throw_errors_neq (A : Type) :
  @Throw A DuplicateFragmentError <> Throw OutOfOrderError.
Proof. intro H. exact (errors_neq (Throw_inj H)). Qed.

(** A joined group behind its prefix is every entry behind the prefix. *)
Lemma join_prefixed (p : string) (x : string) (l : list string) :
  p ++ join p (x :: l) = concat_map (fun v => p ++ v) (x :: l).
Proof.
  revert x. induction l as [|y l IH]; intro x.
  - simpl. now rewrite append_nil_r.
  - change (join p (x :: y :: l)) with (x ++ p ++ join p (y :: l)).
    rewrite IH.
    change (concat_map (fun v => p ++ v) (x :: y :: l))
      with ((p ++ x) ++ concat_map (fun v => p ++ v) (y :: l)).
    now rewrite append_assoc.
Qed.

Lemma prefixed_group (p : string) (l : list string) :
  (if nonempty l then p ++ join p l else "") = concat_map (fun v => p ++ v) l.
Proof.
  destruct l as [|x l]; [reflexivity |].
  change (nonempty (x :: l)) with true. cbv iota. apply join_prefixed.
Qed.

(** For attributes: [[a][b]] is every entry between its own brackets. *)
Lemma join_bracketed (x : string) (l : list string) :
  "[" ++ join "][" (x :: l) ++ "]" = concat_map (fun v => "[" ++ v ++ "]") (x :: l).
Proof.
  revert x. induction l as [|y l IH]; intro x.
  - simpl. now rewrite append_nil_r.
  - change (join "][" (x :: y :: l)) with (x ++ "][" ++ join "][" (y :: l)).
    change (concat_map (fun v => "[" ++ v ++ "]") (x :: y :: l))
      with (("[" ++ x ++ "]") ++ concat_map (fun v => "[" ++ v ++ "]") (y :: l)).
    rewrite <- IH. rewrite !append_assoc. reflexivity.
Qed.

Lemma bracketed_group (l : list string) :
  (if nonempty l then "[" ++ join "][" l ++ "]" else "")
  = concat_map (fun v => "[" ++ v ++ "]") l.
Proof.
  destruct l as [|x l]; [reflexivity |].
  change (nonempty (x :: l)) with true. cbv iota. apply join_bracketed.
Qed.

(** ** [stringify] *)

Section StringifyFacts.
Import CSSSelector.

Lemma stringify_text (o : CSSSelector) : stringify o = (Normal (text o), o).
Proof.
  unfold stringify, bind, read, ret, text. cbv beta iota zeta.
  f_equal. f_equal.
  rewrite <- !prefixed_group, <- bracketed_group.
  rewrite !append_if_r, !append_assoc. reflexivity.
Qed.

Lemma call_stringify_eq (o : CSSSelector) :
  call_stringify o =
  (Normal (match own_stringify o with Some f => f tt | None => text o end), o).
Proof.
  unfold call_stringify, bind, read. cbv beta iota.
  destruct (own_stringify o); [reflexivity | apply stringify_text].
Qed.

Lemma render_eq (o : CSSSelector) :
  render o = Normal (match own_stringify o with Some f => f tt | None => text o end).
Proof. unfold render. now rewrite call_stringify_eq. Qed.

Lemma renders_eq (n : nat) (o : CSSSelector) :
  renders n o =
  (Normal (repeat (match own_stringify o with Some f => f tt | None => text o end) n), o).
Proof.
  induction n as [|n IH]; simpl; [reflexivity |].
  unfold bind. rewrite call_stringify_eq, IH. reflexivity.
Qed.

End StringifyFacts.

(** ** One fragment call *)

Section InvokeFacts.
Import CSSSelector.

Ltac unfold_methods :=
  unfold invoke, element, id, class, attr, pseudoClass, pseudoElement,
    checkOrder, bind, read, update, throw, ret;
  cbn [fst snd].

(** What a fragment call does, in one equation: the duplicate test, then the
    assignment, then [checkOrder]. *)
Lemma invoke_eq (c : fragment) (o : CSSSelector) :
  invoke c o =
  if is_duplicate (fst c) o then (Throw DuplicateFragmentError, o)
  else if (priority o <=? rank (fst c))%nat
       then (Normal tt, set_priority (rank (fst c)) (store c o))
       else (Throw OutOfOrderError, store c o).
Proof.
  destruct c as [k v]; destruct k; unfold_methods; unfold is_duplicate, store;
    cbn [fst snd rank];
    repeat match goal with
           | |- context [truthy ?s] => destruct (truthy s)
           end;
    try reflexivity;
    cbn [priority set_elementValue set_idValue push_classValues push_attrValues
         push_pseudoClassValues set_pseudoElementValue];
    match goal with
    | |- context [(?p <=? ?r)%nat] => destruct (p <=? r)%nat
    end;
    reflexivity.
Qed.

Lemma store_priority (c : fragment) (o : CSSSelector) :
  priority (store c o) = priority o.
Proof. destruct c as [k v]; destruct k; reflexivity. Qed.

Lemma store_own_stringify (c : fragment) (o : CSSSelector) :
  own_stringify (store c o) = own_stringify o.
Proof. destruct c as [k v]; destruct k; reflexivity. Qed.

Lemma invoke_own_stringify (c : fragment) (o : CSSSelector) :
  own_stringify (snd (invoke c o)) = own_stringify o.
Proof.
  rewrite invoke_eq.
  destruct (is_duplicate (fst c) o); [reflexivity |].
  destruct (priority o <=? rank (fst c))%nat; cbn [snd];
    [unfold set_priority; cbn [own_stringify] |]; apply store_own_stringify.
Qed.

Lemma attempts_own_stringify (cs : list fragment) :
  forall o, own_stringify (attempts cs o) = own_stringify o.
Proof.
  unfold attempts.
  induction cs as [|c cs IH]; intro o; simpl; [reflexivity |].
  rewrite IH. apply invoke_own_stringify.
Qed.

Lemma chain_own_stringify (cs : list fragment) :
  forall o, own_stringify (snd (chain cs o)) = own_stringify o.
Proof.
  induction cs as [|c cs IH]; intro o; simpl; [reflexivity |].
  unfold bind.
  pose proof (invoke_own_stringify c o) as Hc.
  destruct (invoke c o) as [[[]|e] o']; cbn [snd] in *.
  - rewrite IH. exact Hc.
  - exact Hc.
Qed.

(** After a call of a singular kind with a non-empty value, the duplicate
    test of that kind fires, whatever the call's outcome. *)
Lemma is_duplicate_after (k : kind) (v : string) (o : CSSSelector) :
  singular k = true -> truthy v = true ->
  is_duplicate k (snd (invoke (k, v) o)) = true.
Proof.
  intros Hk Hv. rewrite invoke_eq. cbn [fst].
  destruct (is_duplicate k o) eqn:Hd; [exact Hd |].
  destruct (priority o <=? rank k)%nat; cbn [snd];
    destruct k; try discriminate Hk; exact Hv.
Qed.

End InvokeFacts.

(** ** Rendering is a projection *)

(** C8: [stringify()] is a pure projection of the object: a call returns a
    string and leaves every field as it was, so any number of calls in a row
    return the same string.  This holds for the method of the class and for
    the call through the own property of a combined selector. *)
Theorem stringify_pure_idempotent (o : CSSSelector) :
  exists s : string,
    CSSSelector.call_stringify o = (Normal s, o)
    /\ (exists s', CSSSelector.stringify o = (Normal s', o))
    /\ CSSSelector.bind CSSSelector.call_stringify
         (fun r1 => CSSSelector.bind CSSSelector.call_stringify
                      (fun r2 => CSSSelector.ret (r1, r2))) o
       = (Normal (s, s), o)
    /\ forall n : nat, renders n o = (Normal (repeat s n), o).
Proof.
  eexists. split; [apply call_stringify_eq |].
  split; [eexists; apply stringify_text |].
  split.
  - unfold CSSSelector.bind. rewrite !call_stringify_eq. reflexivity.
  - intro n. apply renders_eq.
Qed.

(** ** combine *)

Lemma combine_eq (a b : CSSSelector) (t : string) (ra rb : string) :
  render a = Normal ra -> render b = Normal rb ->
  cssSelectorBuilder.combine a t b
  = Normal (CSSSelector.set_stringify (fun _ => ra ++ " " ++ t ++ " " ++ rb) constructor).
Proof.
  intros Ha Hb. unfold cssSelectorBuilder.combine. rewrite Ha, Hb. reflexivity.
Qed.

Lemma render_total (o : CSSSelector) : exists s, render o = Normal s.
Proof. eexists. apply render_eq. Qed.

(** C4: for all operands [a], [b] and every token [t], [combine(a, t, b)]
    returns an object that renders as [a]'s rendering, one space, the token
    as given, one space, [b]'s rendering; the object can be an operand of a
    further [combine], on the left or on the right, with the same law. *)
Theorem combine_renders (a b : CSSSelector) (t : string) :
  exists (ra rb : string) (c : CSSSelector),
    render a = Normal ra
    /\ render b = Normal rb
    /\ cssSelectorBuilder.combine a t b = Normal c
    /\ render c = Normal (ra ++ " " ++ t ++ " " ++ rb)
    /\ forall (u : string) (d : CSSSelector),
         exists (rd : string) (e1 e2 : CSSSelector),
           render d = Normal rd
           /\ cssSelectorBuilder.combine c u d = Normal e1
           /\ render e1 = Normal ((ra ++ " " ++ t ++ " " ++ rb) ++ " " ++ u ++ " " ++ rd)
           /\ cssSelectorBuilder.combine d u c = Normal e2
           /\ render e2 = Normal (rd ++ " " ++ u ++ " " ++ (ra ++ " " ++ t ++ " " ++ rb)).
Proof.
  destruct (render_total a) as [ra Ha], (render_total b) as [rb Hb].
  exists ra, rb. eexists.
  split; [exact Ha |]. split; [exact Hb |].
  split; [apply combine_eq; eassumption |].
  split; [reflexivity |].
  intros u d. destruct (render_total d) as [rd Hd].
  exists rd. do 2 eexists.
  split; [exact Hd |].
  split; [apply combine_eq; [reflexivity | exact Hd] |].
  split; [reflexivity |].
  split; [apply combine_eq; [exact Hd | reflexivity] |].
  reflexivity.
Qed.

(** The single-space token of the third example. *)
Example combine_space :
  cbind (cssSelectorBuilder.combine_of
           (cssSelectorBuilder.element "tr") " " (cssSelectorBuilder.element "td"))
        render
  = Normal "tr   td".
Proof. reflexivity. Qed.

(** C7: the rendering of a combined selector is fixed when [combine]
    returns: whatever fragment methods are then called on it, in a chain or
    one by one with their errors caught, [stringify()] on it still returns
    the string built from the operands' renderings at combine time. *)
Theorem combined_is_frozen (l r : CSSSelector) (t : string) :
  exists (rl rr : string) (c : CSSSelector),
    render l = Normal rl
    /\ render r = Normal rr
    /\ cssSelectorBuilder.combine l t r = Normal c
    /\ render c = Normal (rl ++ " " ++ t ++ " " ++ rr)
    /\ forall cs : list fragment,
         render (attempts cs c) = Normal (rl ++ " " ++ t ++ " " ++ rr)
         /\ render (snd (chain cs c)) = Normal (rl ++ " " ++ t ++ " " ++ rr).
Proof.
  destruct (render_total l) as [rl Hl], (render_total r) as [rr Hr].
  exists rl, rr. eexists.
  split; [exact Hl |]. split; [exact Hr |].
  split; [apply combine_eq; eassumption |].
  split; [reflexivity |].
  intro cs. split.
  - rewrite render_eq, attempts_own_stringify. reflexivity.
  - rewrite render_eq, chain_own_stringify. reflexivity.
Qed.

(** Fragment calls on a combined selector still fill its fields; only the
    rendering ignores them. *)
Example combined_then_class :
  cbind (cssSelectorBuilder.combine_of
           (cssSelectorBuilder.element "a") ">" (cssSelectorBuilder.element "b"))
        (fun c => cbind (call_on c (CSSSelector.class "x"))
                    (fun c' => cbind (render c')
                       (fun s => Normal (s, CSSSelector.classValues c'))))
  = Normal ("a > b", ["x"]).
Proof. reflexivity. Qed.

(** ** Errors of a fragment call *)

Section ErrorFacts.
Import CSSSelector.

Lemma invoke_outcomes (c : fragment) (o : CSSSelector) :
  fst (invoke c o) = Normal tt
  \/ fst (invoke c o) = Throw DuplicateFragmentError
  \/ fst (invoke c o) = Throw OutOfOrderError.
Proof.
  rewrite invoke_eq.
  destruct (is_duplicate (fst c) o); [auto |].
  destruct (priority o <=? rank (fst c))%nat; auto.
Qed.

Lemma invoke_duplicate_iff (c : fragment) (o : CSSSelector) :
  fst (invoke c o) = Throw DuplicateFragmentError <-> is_duplicate (fst c) o = true.
Proof.
  rewrite invoke_eq.
  destruct (is_duplicate (fst c) o).
  - split; reflexivity.
  - destruct (priority o <=? rank (fst c))%nat; cbn [fst]; split; intro H;
      try discriminate H;
      symmetry in H; destruct (Throw_errors_neq H).
Qed.

Lemma invoke_order_iff (c : fragment) (o : CSSSelector) :
  fst (invoke c o) = Throw OutOfOrderError
  <-> is_duplicate (fst c) o = false /\ (rank (fst c) < priority o)%nat.
Proof.
  rewrite invoke_eq.
  destruct (is_duplicate (fst c) o).
  - cbn [fst]. split.
    + intro H. destruct (Throw_errors_neq H).
    + intros [H _]. discriminate H.
  - destruct (Nat.leb_spec (priority o) (rank (fst c))) as [Hle | Hlt]; cbn [fst].
    + split; [intro H; discriminate H | intros [_ H]; lia].
    + split; [intros _; split; [reflexivity | exact Hlt] | reflexivity].
Qed.

Lemma invoke_normal_iff (c : fragment) (o : CSSSelector) :
  fst (invoke c o) = Normal tt
  <-> is_duplicate (fst c) o = false /\ (priority o <= rank (fst c))%nat.
Proof.
  rewrite invoke_eq.
  destruct (is_duplicate (fst c) o).
  - cbn [fst]. split; [intro H | intros [H _]]; discriminate H.
  - destruct (Nat.leb_spec (priority o) (rank (fst c))) as [Hle | Hlt]; cbn [fst].
    + split; [intros _; split; [reflexivity | exact Hle] | reflexivity].
    + split; [intro H; discriminate H | intros [_ H]; lia].
Qed.

Lemma invoke_normal_state (c : fragment) (o : CSSSelector) :
  fst (invoke c o) = Normal tt ->
  snd (invoke c o) = set_priority (rank (fst c)) (store c o).
Proof.
  rewrite invoke_eq.
  destruct (is_duplicate (fst c) o); [intro H; discriminate H |].
  destruct (priority o <=? rank (fst c))%nat; cbn [fst snd]; intro H;
    [reflexivity | discriminate H].
Qed.

Lemma is_duplicate_plural (k : kind) (o : CSSSelector) :
  singular k = false -> is_duplicate k o = false.
Proof. destruct k; intro H; try discriminate H; reflexivity. Qed.

Lemma is_duplicate_set_priority (k : kind) (p : nat) (o : CSSSelector) :
  is_duplicate k (set_priority p o) = is_duplicate k o.
Proof. destruct k; reflexivity. Qed.

(** The priority is the highest rank among the fragments added so far. *)
Lemma priority_attempts (cs : list fragment) :
  forall o,
    priority (attempts cs o) = Nat.max (priority o) (highest_rank (accepted cs o)).
Proof.
  unfold attempts, highest_rank.
  induction cs as [|c cs IH]; intro o.
  - cbn. lia.
  - cbn [fold_left accepted]. rewrite IH. unfold attempt.
    rewrite invoke_eq.
    destruct (is_duplicate (fst c) o); cbn [fst snd is_normal app]; [reflexivity |].
    destruct (Nat.leb_spec (priority o) (rank (fst c))) as [Hle | Hlt];
      cbn [fst snd is_normal app map].
    + change (priority (set_priority (rank (fst c)) (store c o))) with (rank (fst c)).
      unfold list_max. cbn [fold_right]. lia.
    + rewrite store_priority. reflexivity.
Qed.

Lemma priority_history (cs : list fragment) :
  priority (attempts cs constructor) = highest_rank (accepted cs constructor).
Proof. rewrite priority_attempts. reflexivity. Qed.

End ErrorFacts.

(** C2, the claim as stated fails: after [element('a').class('b')] the rank
    of [element] (1) is below the highest rank added (3), and the call
    [element('c')] throws the duplicate error, not the order error. *)
Lemma order_error_counterexample :
  exists o : CSSSelector,
    (cssSelectorBuilder.element "a" ~> CSSSelector.class "b") = Normal o
    /\ (rank Element <? CSSSelector.priority o)%nat = true
    /\ fst (invoke (Element, "c") o) = Throw DuplicateFragmentError
    /\ String.eqb DuplicateFragmentError OutOfOrderError = false.
Proof. eexists. repeat split. Qed.

(** C2, amended: a fragment call throws the order error exactly when it is
    not rejected as a duplicate first and its rank is strictly below the
    builder's priority, which on a builder made by the facade and any calls
    is the highest rank among the fragments added so far; for class,
    attribute and pseudo-class, which have no duplicate test, exactly when
    the rank is strictly below the priority.
    A call of equal rank that is no duplicate returns normally, so a class
    call after a class call that returned returns too, and a class call
    after an attribute call that returned throws the order error. *)
Theorem order_error_iff (o : CSSSelector) (k : kind) (v w : string) :
  (fst (invoke (k, v) o) = Throw OutOfOrderError
   <-> is_duplicate k o = false /\ (rank k < CSSSelector.priority o)%nat)
  /\ (forall cs : list fragment,
        fst (invoke (k, v) (attempts cs constructor)) = Throw OutOfOrderError
        <-> is_duplicate k (attempts cs constructor) = false
            /\ (rank k < highest_rank (accepted cs constructor))%nat)
  /\ (singular k = false ->
      (fst (invoke (k, v) o) = Throw OutOfOrderError
       <-> (rank k < CSSSelector.priority o)%nat))
  /\ (is_duplicate k o = false -> CSSSelector.priority o = rank k ->
      fst (invoke (k, v) o) = Normal tt)
  /\ (fst (invoke (Class, v) o) = Normal tt ->
      fst (invoke (Class, w) (snd (invoke (Class, v) o))) = Normal tt)
  /\ (fst (invoke (Attr, v) o) = Normal tt ->
      fst (invoke (Class, w) (snd (invoke (Attr, v) o))) = Throw OutOfOrderError).
Proof.
  split; [apply (invoke_order_iff (k, v)) |].
  split.
  { intro cs. rewrite <- priority_history. apply (invoke_order_iff (k, v)). }
  split.
  { intro Hk. rewrite (invoke_order_iff (k, v)). cbn [fst].
    rewrite (is_duplicate_plural k o Hk). tauto. }
  split.
  { intros Hd Hp. apply invoke_normal_iff. cbn [fst]. split; [exact Hd | lia]. }
  split.
  - intro H. rewrite (invoke_normal_state _ _ H).
    apply invoke_normal_iff. split; [reflexivity | cbn; lia].
  - intro H. rewrite (invoke_normal_state _ _ H).
    apply invoke_order_iff. split; [reflexivity | cbn; lia].
Qed.

Lemma order_error_iff_witness :
  fst (invoke (Class, "b") (snd (invoke (Class, "a") constructor))) = Normal tt
  /\ fst (invoke (Class, "b") (snd (invoke (Attr, "a") constructor)))
     = Throw OutOfOrderError
  /\ fst (invoke (Attr, "c") (snd (invoke (Attr, "a") constructor))) = Normal tt
  /\ (fst (invoke (Class, "a") constructor) = Throw OutOfOrderError
      <-> (rank Class < CSSSelector.priority constructor)%nat).
Proof.
  split; [| split; [| split]].
  - apply (proj1 (proj2 (proj2 (proj2 (proj2 (order_error_iff constructor Class "a" "b")))))).
    reflexivity.
  - apply (proj2 (proj2 (proj2 (proj2 (proj2 (order_error_iff constructor Class "a" "b")))))).
    reflexivity.
  - apply (proj1 (proj2 (proj2 (proj2 (order_error_iff
             (snd (invoke (Attr, "a") constructor)) Attr "c" "b")))));
      reflexivity.
  - apply (proj1 (proj2 (proj2 (order_error_iff constructor Class "a" "b")))).
    reflexivity.
Defined.

(** C3, the claim as stated fails: with the empty string as first value the
    second [element] call returns normally and its value is rendered. *)
Lemma duplicate_error_counterexample :
  exists o : CSSSelector,
    cssSelectorBuilder.element "" = Normal o
    /\ fst (invoke (Element, "x") o) = Normal tt
    /\ render (snd (invoke (Element, "x") o)) = Normal "x".
Proof. eexists. repeat split. Qed.

(** C3, amended: on every builder, after a call of [element] (likewise
    [id], likewise [pseudoElement]) with a non-empty value, a second call of
    the same method throws the duplicate error, whatever its value and
    whatever the outcome of the first call.  [class], [attr] and
    [pseudoClass] never throw the duplicate error, and a second call of one
    of them after a call that returned returns too. *)
Theorem duplicate_error_second_call (o : CSSSelector) (k : kind) (v1 v2 : string) :
  (singular k = true -> truthy v1 = true ->
   fst (invoke (k, v2) (snd (invoke (k, v1) o))) = Throw DuplicateFragmentError)
  /\ (singular k = false ->
      (fst (invoke (k, v1) o) = Normal tt \/ fst (invoke (k, v1) o) = Throw OutOfOrderError)
      /\ (fst (invoke (k, v1) o) = Normal tt ->
          fst (invoke (k, v2) (snd (invoke (k, v1) o))) = Normal tt)).
Proof.
  split.
  - intros Hk Hv. apply (invoke_duplicate_iff (k, v2)). cbn [fst].
    apply is_duplicate_after; assumption.
  - intro Hk. split.
    + destruct (invoke_outcomes (k, v1) o) as [H | [H | H]]; auto.
      apply (invoke_duplicate_iff (k, v1)) in H. cbn [fst] in H.
      rewrite (is_duplicate_plural k o Hk) in H. discriminate H.
    + intro H. rewrite (invoke_normal_state _ _ H). cbn [fst].
      apply invoke_normal_iff. cbn [fst]. split.
      * apply is_duplicate_plural. exact Hk.
      * cbn. lia.
Qed.

Lemma duplicate_error_second_call_witness :
  fst (invoke (Id, "b") (snd (invoke (Id, "a") constructor)))
  = Throw DuplicateFragmentError
  /\ fst (invoke (PseudoElement, "b")
            (snd (invoke (PseudoElement, "a") (snd (invoke (Class, "c") constructor)))))
     = Throw DuplicateFragmentError
  /\ fst (invoke (Class, "a") (snd (invoke (Class, "a") constructor))) = Normal tt.
Proof.
  split; [| split].
  - apply (proj1 (duplicate_error_second_call constructor Id "a" "b")); reflexivity.
  - apply (proj1 (duplicate_error_second_call
                    (snd (invoke (Class, "c") constructor)) PseudoElement "a" "b"));
      reflexivity.
  - apply (proj2 (duplicate_error_second_call constructor Class "a" "a"));
      reflexivity.
Defined.

(** C5, the claim as stated fails: [class('a')] then [id('x')] throws the
    order error, and the builder, which rendered [.a] before the failing
    call, renders [#x.a] after it. *)
Lemma atomic_error_counterexample :
  exists o : CSSSelector,
    cssSelectorBuilder.class "a" = Normal o
    /\ fst (invoke (Id, "x") o) = Throw OutOfOrderError
    /\ render o = Normal ".a"
    /\ render (snd (invoke (Id, "x") o)) = Normal "#x.a".
Proof. eexists. repeat split. Qed.

(** C5, amended: a fragment call throws one of the two errors or returns.
    When it throws the duplicate error, the builder is as it was before the
    call.  When it throws the order error, the builder's priority is as it
    was, and the builder is otherwise as the method's assignment or push
    left it: the rejected value is stored.  In both cases the chained
    expression has no value, so nothing is rendered from it. *)
Theorem failed_call_state (o : CSSSelector) (c : fragment) :
  (fst (invoke c o) = Throw DuplicateFragmentError -> snd (invoke c o) = o)
  /\ (fst (invoke c o) = Throw OutOfOrderError ->
      snd (invoke c o) = store c o
      /\ CSSSelector.priority (snd (invoke c o)) = CSSSelector.priority o)
  /\ (forall e : string,
        fst (invoke c o) = Throw e ->
        (e = DuplicateFragmentError \/ e = OutOfOrderError)
        /\ call_on o (invoke c) = Throw e
        /\ cbind (call_on o (invoke c)) render = Throw e).
Proof.
  split; [| split].
  - intro H. apply invoke_duplicate_iff in H. rewrite invoke_eq, H. reflexivity.
  - intro H. apply invoke_order_iff in H. destruct H as [Hd Hlt].
    rewrite invoke_eq, Hd.
    assert (Hleb : (CSSSelector.priority o <=? rank (fst c))%nat = false)
      by (apply Nat.leb_gt; exact Hlt).
    rewrite Hleb. cbn [snd]. split; [reflexivity | apply store_priority].
  - intros e H. split.
    + destruct (invoke_outcomes c o) as [H' | [H' | H']]; rewrite H' in H;
        [discriminate H | left | right]; symmetry; exact (Throw_inj H).
    + unfold call_on. destruct (invoke c o) as [r o']. cbn [fst] in H. subst r.
      split; reflexivity.
Qed.

Lemma failed_call_state_witness :
  snd (invoke (Id, "b") (snd (invoke (Id, "a") constructor)))
  = snd (invoke (Id, "a") constructor)
  /\ (snd (invoke (Id, "x") (snd (invoke (Class, "a") constructor)))
      = store (Id, "x") (snd (invoke (Class, "a") constructor))
      /\ CSSSelector.priority (snd (invoke (Id, "x") (snd (invoke (Class, "a") constructor))))
         = CSSSelector.priority (snd (invoke (Class, "a") constructor)))
  /\ cbind (call_on (snd (invoke (Class, "a") constructor)) (invoke (Id, "x"))) render
     = Throw OutOfOrderError.
Proof.
  split; [| split].
  - apply (proj1 (failed_call_state (snd (invoke (Id, "a") constructor)) (Id, "b"))).
    reflexivity.
  - apply (proj1 (proj2 (failed_call_state
                           (snd (invoke (Class, "a") constructor)) (Id, "x")))).
    reflexivity.
  - apply (proj2 (proj2 (failed_call_state
                           (snd (invoke (Class, "a") constructor)) (Id, "x")))).
    reflexivity.
Defined.

(** ** The empty string *)

Lemma text_store_empty (k : kind) (o : CSSSelector) :
  singular k = true -> is_duplicate k o = false ->
  text (store (k, "") o) = text o.
Proof.
  intros Hk Hd. destruct k; try discriminate Hk; cbn in Hd;
    unfold text, store; cbn; rewrite Hd; reflexivity.
Qed.

Lemma text_set_priority (p : nat) (o : CSSSelector) :
  text (CSSSelector.set_priority p o) = text o.
Proof. reflexivity. Qed.

Lemma is_duplicate_store_empty (k : kind) (o : CSSSelector) :
  singular k = true -> is_duplicate k (store (k, "") o) = false.
Proof. intro Hk. destruct k; try discriminate Hk; reflexivity. Qed.

(** C9, the claim as stated fails: on a builder that holds the element
    ['a'], the call [element('')] throws the duplicate error, and so does
    the call [element('b')] that follows it. *)
Lemma empty_string_counterexample :
  exists o : CSSSelector,
    cssSelectorBuilder.element "a" = Normal o
    /\ fst (invoke (Element, "") o) = Throw DuplicateFragmentError
    /\ fst (invoke (Element, "b") (snd (invoke (Element, "") o)))
       = Throw DuplicateFragmentError.
Proof. eexists. repeat split. Qed.

(** C9, amended: a call of [element], [id] or [pseudoElement] with the
    empty string contributes nothing to the rendering, on every builder and
    whatever the call's outcome: the builder renders exactly as before the
    call.  When that call is not itself rejected as a duplicate, that is,
    when no non-empty value of that kind is stored, the duplicate test of
    that kind still does not fire after it, and a following call of the same
    method, with any value, does not throw the duplicate error: it returns
    normally if the first call did. *)
Theorem empty_string_is_absent (o : CSSSelector) (k : kind) (v : string) :
  singular k = true ->
  render (snd (invoke (k, "") o)) = render o
  /\ (fst (invoke (k, "") o) <> Throw DuplicateFragmentError
      <-> is_duplicate k o = false)
  /\ (fst (invoke (k, "") o) <> Throw DuplicateFragmentError ->
      is_duplicate k (snd (invoke (k, "") o)) = false
      /\ fst (invoke (k, v) (snd (invoke (k, "") o))) <> Throw DuplicateFragmentError
      /\ (fst (invoke (k, "") o) = Normal tt ->
          fst (invoke (k, v) (snd (invoke (k, "") o))) = Normal tt)).
Proof.
  intro Hk.
  assert (Hiff : fst (invoke (k, "") o) <> Throw DuplicateFragmentError
                 <-> is_duplicate k o = false).
  { rewrite (invoke_duplicate_iff (k, "") o). cbn [fst].
    destruct (is_duplicate k o); split; intro H; try reflexivity;
      try discriminate H; [destruct H; reflexivity | intro H'; discriminate H']. }
  split; [| split; [exact Hiff |]].
  - rewrite !render_eq, invoke_own_stringify.
    destruct (CSSSelector.own_stringify o); [reflexivity |].
    f_equal. rewrite invoke_eq. cbn [fst].
    destruct (is_duplicate k o) eqn:Hd; [reflexivity |].
    destruct (CSSSelector.priority o <=? rank k)%nat; cbn [snd].
    + rewrite text_set_priority. apply text_store_empty; assumption.
    + apply text_store_empty; assumption.
  - intro Hnd. apply Hiff in Hnd. rename Hnd into Hd.
    assert (Hd' : is_duplicate k (snd (invoke (k, "") o)) = false).
    { rewrite invoke_eq. cbn [fst]. rewrite Hd.
      destruct (CSSSelector.priority o <=? rank k)%nat; cbn [snd].
      - rewrite is_duplicate_set_priority. apply is_duplicate_store_empty. exact Hk.
      - apply is_duplicate_store_empty. exact Hk. }
    split; [exact Hd' | split].
    + intro H. apply (invoke_duplicate_iff (k, v)) in H. cbn [fst] in H.
      rewrite Hd' in H. discriminate H.
    + intro H. rewrite (invoke_normal_state _ _ H) in *. cbn [fst] in *.
      apply invoke_normal_iff. cbn [fst]. split; [exact Hd' |].
      cbn. lia.
Qed.

Lemma empty_string_is_absent_witness :
  (render (snd (invoke (Element, "") constructor)) = render constructor
   /\ render (snd (invoke (Id, "") (snd (invoke (Id, "main") constructor))))
      = render (snd (invoke (Id, "main") constructor)))
  /\ is_duplicate Element (snd (invoke (Element, "") constructor)) = false
  /\ fst (invoke (Element, "div") (snd (invoke (Element, "") constructor)))
     <> Throw DuplicateFragmentError
  /\ (fst (invoke (Element, "") constructor) = Normal tt ->
      fst (invoke (Element, "div") (snd (invoke (Element, "") constructor))) = Normal tt).
Proof.
  split; [split |].
  - apply (proj1 (empty_string_is_absent constructor Element "div" eq_refl)).
  - apply (proj1 (empty_string_is_absent (snd (invoke (Id, "main") constructor)) Id "x"
                    eq_refl)).
  - apply (proj2 (proj2 (empty_string_is_absent constructor Element "div" eq_refl))).
    intro H. discriminate H.
Defined.

(** Through the facade: [element('')], [id('')] and [pseudoElement('')] all
    render the empty string, and the same method can be called again. *)
Example empty_string_facade :
  cbind (cssSelectorBuilder.element "") render = Normal ""
  /\ cbind (cssSelectorBuilder.id "") render = Normal ""
  /\ cbind (cssSelectorBuilder.pseudoElement "") render = Normal ""
  /\ cbind (cssSelectorBuilder.id "" ~> CSSSelector.id "main") render = Normal "#main"
  /\ cbind (cssSelectorBuilder.pseudoElement "" ~> CSSSelector.pseudoElement "after") render
     = Normal "::after".
Proof. repeat split. Qed.

(** ** A whole chain in kind order *)

Section ChainFacts.
Import CSSSelector.

Lemma single_as_is (l : list string) :
  (List.length l <= 1)%nat ->
  (if truthy (last l "") then last l "" else "") = concat_map (fun v => v) l.
Proof.
  destruct l as [|v [|w l]]; cbn [List.length]; intro H; [reflexivity | | lia].
  cbn. rewrite append_nil_r. destruct v; reflexivity.
Qed.

Lemma single_prefixed (p : string) (l : list string) :
  (List.length l <= 1)%nat ->
  (if truthy (last l "") then p ++ last l "" else "")
  = concat_map (fun v => p ++ v) (filter truthy l).
Proof.
  destruct l as [|v [|w l]]; cbn [List.length]; intro H; [reflexivity | | lia].
  cbn [last filter]. destruct (truthy v); [| reflexivity].
  cbn. now rewrite append_nil_r.
Qed.

Lemma last_cons_default (l : list string) :
  forall x d d', last (x :: l) d = last (x :: l) d'.
Proof.
  induction l as [|y l IH]; intros x d d'; [reflexivity |].
  change (last (y :: l) d = last (y :: l) d'). apply IH.
Qed.

Lemma values_cons_same (k : kind) (v : string) (cs : list fragment) :
  values k ((k, v) :: cs) = v :: values k cs.
Proof. destruct k; reflexivity. Qed.

Lemma values_cons_other (k k' : kind) (v : string) (cs : list fragment) :
  kind_eqb k' k = false -> values k ((k', v) :: cs) = values k cs.
Proof. intro H. unfold values. cbn [filter fst]. now rewrite H. Qed.

(** The fields after a run of accepted calls. *)
Lemma accept_fields (cs : list fragment) :
  forall o,
    elementValue (fold_left accept cs o) = last (values Element cs) (elementValue o)
    /\ idValue (fold_left accept cs o) = last (values Id cs) (idValue o)
    /\ classValues (fold_left accept cs o) = (classValues o ++ values Class cs)%list
    /\ attrValues (fold_left accept cs o) = (attrValues o ++ values Attr cs)%list
    /\ pseudoClassValues (fold_left accept cs o)
       = (pseudoClassValues o ++ values PseudoClass cs)%list
    /\ pseudoElementValue (fold_left accept cs o)
       = last (values PseudoElement cs) (pseudoElementValue o)
    /\ own_stringify (fold_left accept cs o) = own_stringify o.
Proof.
  induction cs as [|[k v] cs IH]; intro o.
  - cbn. rewrite !app_nil_r. repeat split.
  - cbn [fold_left].
    destruct (IH (accept o (k, v))) as (He & Hi & Hc & Ha & Hp & Hq & Hs).
    rewrite He, Hi, Hc, Ha, Hp, Hq, Hs.
    destruct k;
      rewrite values_cons_same, !values_cons_other by reflexivity;
      cbn; rewrite <- ?app_assoc; cbn;
      repeat split;
      match goal with
      | |- last ?l _ = _ => destruct l; [reflexivity | apply last_cons_default]
      end.
Qed.

(** A chain whose ranks do not go down from the priority, with no singular
    kind used up, returns, every call accepted. *)
Lemma chain_accepts (cs : list fragment) :
  forall o,
    ordered_from (priority o) cs = true ->
    (pending Element o cs <= 1)%nat ->
    (pending Id o cs <= 1)%nat ->
    (pending PseudoElement o cs <= 1)%nat ->
    chain cs o = (Normal tt, fold_left accept cs o).
Proof.
  induction cs as [|[k v] cs IH]; intros o Hord He Hi Hp; [reflexivity |].
  cbn [ordered_from fst] in Hord. apply andb_true_iff in Hord.
  destruct Hord as [Hle Hord].
  unfold pending in He, Hi, Hp.
  assert (Hd : is_duplicate k o = false).
  { destruct k; try reflexivity;
      rewrite values_cons_same in *; cbn [List.length] in *;
      match goal with
      | |- ?d = false => destruct d; [lia | reflexivity]
      end. }
  cbn [chain fold_left]. unfold bind.
  rewrite invoke_eq. cbn [fst]. rewrite Hd, Hle.
  apply IH.
  - unfold accept. cbn [fst priority set_priority]. exact Hord.
  - unfold pending.
    destruct k;
      rewrite ?values_cons_same, ?values_cons_other in He by reflexivity;
      cbn [List.length] in He; cbn in *; try lia;
      destruct (truthy v); lia.
  - unfold pending.
    destruct k;
      rewrite ?values_cons_same, ?values_cons_other in Hi by reflexivity;
      cbn [List.length] in Hi; cbn in *; try lia;
      destruct (truthy v); lia.
  - unfold pending.
    destruct k;
      rewrite ?values_cons_same, ?values_cons_other in Hp by reflexivity;
      cbn [List.length] in Hp; cbn in *; try lia;
      destruct (truthy v); lia.
Qed.

Lemma text_accepted (cs : list fragment) :
  singular_once cs = true ->
  text (fold_left accept cs constructor) = code_render cs.
Proof.
  unfold singular_once, at_most_once. intro H.
  apply andb_true_iff in H. destruct H as [H Hp].
  apply andb_true_iff in H. destruct H as [He Hi].
  apply Nat.leb_le in He, Hi, Hp.
  destruct (accept_fields cs constructor) as (Fe & Fi & Fc & Fa & Fp & Fq & _).
  unfold text, code_render. rewrite Fe, Fi, Fc, Fa, Fp, Fq.
  unfold constructor.
  cbn [elementValue idValue classValues attrValues pseudoClassValues
       pseudoElementValue app].
  rewrite (single_as_is _ He), (single_prefixed "#" _ Hi), (single_prefixed "::" _ Hp).
  reflexivity.
Qed.

Lemma filter_truthy_all (l : list string) :
  (forall v, In v l -> truthy v = true) -> filter truthy l = l.
Proof.
  induction l as [|x l IH]; intro H; [reflexivity |].
  cbn. rewrite (H x (or_introl eq_refl)). f_equal.
  apply IH. intros v Hv. apply H. right. exact Hv.
Qed.

Lemma In_values (k : kind) (v : string) (cs : list fragment) :
  In v (values k cs) -> In (k, v) cs.
Proof.
  unfold values. intro H. apply in_map_iff in H.
  destruct H as [[k' v'] [Hv Hin]]. cbn in Hv. subst v'.
  apply filter_In in Hin. destruct Hin as [Hin Hk]. cbn [fst] in Hk.
  replace k with k'; [exact Hin |].
  destruct k, k'; try reflexivity; discriminate Hk.
Qed.

End ChainFacts.

Lemma ordered_from_Sorted (cs : list fragment) :
  forall p : nat,
    Sorted le (map (fun c => rank (fst c)) cs) ->
    HdRel le p (map (fun c => rank (fst c)) cs) ->
    ordered_from p cs = true.
Proof.
  induction cs as [|c cs IH]; intros p Hs Hh; [reflexivity |].
  cbn [map] in Hs, Hh. cbn [ordered_from].
  apply Sorted_inv in Hs. destruct Hs as [Hs Hh'].
  apply HdRel_inv in Hh.
  apply andb_true_iff. split; [apply Nat.leb_le; exact Hh | apply IH; assumption].
Qed.

Lemma ordered_Sorted (cs : list fragment) :
  Sorted le (map (fun c => rank (fst c)) cs) -> ordered cs = true.
Proof.
  intro Hs. apply ordered_from_Sorted; [exact Hs |].
  destruct cs; constructor. lia.
Qed.

(** C1, the claim as stated fails: the one-call sequence [id('')] is in kind
    order and sets the id once; the chain returns and renders the empty
    string, where the id behind its [#] would be ["#"]. *)
Lemma ordered_render_counterexample :
  ordered [(Id, "")] = true
  /\ singular_once [(Id, "")] = true
  /\ cbind (cssSelectorBuilder.id "") render = Normal ""
  /\ spec_render [(Id, "")] = "#".
Proof. repeat split. Qed.

(** C1, amended: for every sequence of fragment calls on a new builder whose
    ranks never go down and in which element, id and pseudo-element are each
    called at most once, the chain returns without an error and [render()]
    returns the concatenation, in kind order, of the element as it is, the
    id behind [#], each class behind [.], each attribute between brackets,
    each pseudo-class behind [:] and the pseudo-element behind [::], entries
    of a group in call order and nothing between groups, where a group
    without entries and an id or pseudo-element that is the empty string
    contribute nothing.  When no id or pseudo-element of the sequence is the
    empty string this is the rendering of the claim as stated. *)
Theorem ordered_chain_renders (cs : list fragment) :
  Sorted le (map (fun c => rank (fst c)) cs) ->
  (List.length (values Element cs) <= 1)%nat ->
  (List.length (values Id cs) <= 1)%nat ->
  (List.length (values PseudoElement cs) <= 1)%nat ->
  exists o : CSSSelector,
    chain cs constructor = (Normal tt, o)
    /\ render o = Normal (code_render cs)
    /\ ((forall v, In (Id, v) cs \/ In (PseudoElement, v) cs -> truthy v = true) ->
        render o = Normal (spec_render cs)).
Proof.
  intros Hs He Hi Hp.
  exists (fold_left accept cs constructor).
  assert (Hr : render (fold_left accept cs constructor) = Normal (code_render cs)).
  { rewrite render_eq.
    destruct (accept_fields cs constructor) as (_ & _ & _ & _ & _ & _ & Fs).
    rewrite Fs. cbn [CSSSelector.own_stringify constructor].
    f_equal. apply text_accepted.
    unfold singular_once, at_most_once.
    rewrite !andb_true_iff, !Nat.leb_le. auto. }
  split; [| split].
  - apply chain_accepts; unfold pending; cbn; try lia.
    apply ordered_from_Sorted; [exact Hs |].
    destruct cs; constructor. lia.
  - exact Hr.
  - intro Hne. rewrite Hr. f_equal. unfold code_render, spec_render.
    rewrite !filter_truthy_all; [reflexivity | |];
      intros v Hv; apply Hne; apply In_values in Hv; auto.
Qed.

Lemma ordered_chain_renders_witness :
  exists o : CSSSelector,
    chain [(Element, "div"); (Id, "main"); (Class, "container"); (Class, "draggable");
           (Attr, "data-x"); (PseudoClass, "hover"); (PseudoElement, "after")] constructor
    = (Normal tt, o)
    /\ render o = Normal "div#main.container.draggable[data-x]:hover::after".
Proof.
  destruct (ordered_chain_renders
              [(Element, "div"); (Id, "main"); (Class, "container");
               (Class, "draggable"); (Attr, "data-x"); (PseudoClass, "hover");
               (PseudoElement, "after")]) as (o & Hc & Hr & _).
  - cbn. repeat constructor.
  - cbn. lia.
  - cbn. lia.
  - cbn. lia.
  - exists o. split; [exact Hc | exact Hr].
Defined.

(** * Further properties of the builder *)

(** ** Calls made one by one, errors caught *)

Section AttemptFacts.
Import CSSSelector.

Lemma attempt_eq (o : CSSSelector) (c : fragment) :
  attempt o c =
  if is_duplicate (fst c) o then o
  else if (priority o <=? rank (fst c))%nat then accept o c else store c o.
Proof.
  unfold attempt. rewrite invoke_eq.
  destruct (is_duplicate (fst c) o); [reflexivity |].
  destruct (priority o <=? rank (fst c))%nat; reflexivity.
Qed.

Ltac attempt_cases o k :=
  rewrite attempt_eq; cbn [fst];
  destruct (is_duplicate k o) eqn:?;
  [| destruct (priority o <=? rank k)%nat eqn:?].

Lemma attempt_plural (o : CSSSelector) (c : fragment) :
  classValues (attempt o c) = (classValues o ++ values Class [c])%list
  /\ attrValues (attempt o c) = (attrValues o ++ values Attr [c])%list
  /\ pseudoClassValues (attempt o c)
     = (pseudoClassValues o ++ values PseudoClass [c])%list.
Proof.
  destruct c as [k v]. attempt_cases o k; destruct k; try discriminate;
    cbn; rewrite ?app_nil_r; repeat split.
Qed.

Lemma values_app (k : kind) (l1 l2 : list fragment) :
  values k (l1 ++ l2) = (values k l1 ++ values k l2)%list.
Proof. unfold values. now rewrite filter_app, map_app. Qed.

Lemma attempt_elementValue (o : CSSSelector) (c : fragment) :
  elementValue (attempt o c) =
  match fst c with
  | Element => if truthy (elementValue o) then elementValue o else snd c
  | _ => elementValue o
  end.
Proof.
  destruct c as [k v]. attempt_cases o k; destruct k; try discriminate;
    cbn [fst snd is_duplicate] in *; try reflexivity;
    match goal with H : truthy _ = _ |- _ => rewrite H end; reflexivity.
Qed.

Lemma attempt_idValue (o : CSSSelector) (c : fragment) :
  idValue (attempt o c) =
  match fst c with
  | Id => if truthy (idValue o) then idValue o else snd c
  | _ => idValue o
  end.
Proof.
  destruct c as [k v]. attempt_cases o k; destruct k; try discriminate;
    cbn [fst snd is_duplicate] in *; try reflexivity;
    match goal with H : truthy _ = _ |- _ => rewrite H end; reflexivity.
Qed.

Lemma attempt_pseudoElementValue (o : CSSSelector) (c : fragment) :
  pseudoElementValue (attempt o c) =
  match fst c with
  | PseudoElement => if truthy (pseudoElementValue o) then pseudoElementValue o else snd c
  | _ => pseudoElementValue o
  end.
Proof.
  destruct c as [k v]. attempt_cases o k; destruct k; try discriminate;
    cbn [fst snd is_duplicate] in *; try reflexivity;
    match goal with H : truthy _ = _ |- _ => rewrite H end; reflexivity.
Qed.

Lemma attempt_priority (o : CSSSelector) (c : fragment) :
  priority (attempt o c) = priority o
  \/ (priority o <= priority (attempt o c) /\ priority (attempt o c) = rank (fst c))%nat.
Proof.
  destruct c as [k v]. attempt_cases o k.
  - left. reflexivity.
  - right. unfold accept. cbn [fst priority set_priority].
    split; [apply Nat.leb_le; assumption | reflexivity].
  - left. apply store_priority.
Qed.

End AttemptFacts.

Section AttemptsFacts.
Import CSSSelector.

Lemma values_cons (k : kind) (c : fragment) (cs : list fragment) :
  values k (c :: cs) = (values k [c] ++ values k cs)%list.
Proof. apply (values_app k [c] cs). Qed.

Lemma first_truthy_cons (x : string) (l : list string) :
  first_truthy (x :: l) = if truthy x then x else first_truthy l.
Proof. unfold first_truthy. cbn [filter]. destruct (truthy x); reflexivity. Qed.

Lemma attempts_elementValue (cs : list fragment) :
  forall o, elementValue (attempts cs o) = first_truthy (elementValue o :: values Element cs).
Proof.
  unfold attempts.
  induction cs as [|[k v] cs IH]; intro o; cbn [fold_left].
  - rewrite first_truthy_cons. destruct (elementValue o); reflexivity.
  - rewrite IH, attempt_elementValue. cbn [fst snd].
    destruct k; rewrite ?values_cons_same, ?values_cons_other by reflexivity;
      try reflexivity.
    rewrite !first_truthy_cons. destruct (truthy (elementValue o)) eqn:E.
    + now rewrite E.
    + reflexivity.
Qed.

Lemma attempts_idValue (cs : list fragment) :
  forall o, idValue (attempts cs o) = first_truthy (idValue o :: values Id cs).
Proof.
  unfold attempts.
  induction cs as [|[k v] cs IH]; intro o; cbn [fold_left].
  - rewrite first_truthy_cons. destruct (idValue o); reflexivity.
  - rewrite IH, attempt_idValue. cbn [fst snd].
    destruct k; rewrite ?values_cons_same, ?values_cons_other by reflexivity;
      try reflexivity.
    rewrite !first_truthy_cons. destruct (truthy (idValue o)) eqn:E.
    + now rewrite E.
    + reflexivity.
Qed.

Lemma attempts_pseudoElementValue (cs : list fragment) :
  forall o,
    pseudoElementValue (attempts cs o)
    = first_truthy (pseudoElementValue o :: values PseudoElement cs).
Proof.
  unfold attempts.
  induction cs as [|[k v] cs IH]; intro o; cbn [fold_left].
  - rewrite first_truthy_cons. destruct (pseudoElementValue o); reflexivity.
  - rewrite IH, attempt_pseudoElementValue. cbn [fst snd].
    destruct k; rewrite ?values_cons_same, ?values_cons_other by reflexivity;
      try reflexivity.
    rewrite !first_truthy_cons. destruct (truthy (pseudoElementValue o)) eqn:E.
    + now rewrite E.
    + reflexivity.
Qed.

Lemma attempts_priority_bounds (cs : list fragment) :
  forall o,
    (priority o <= priority (attempts cs o))%nat
    /\ (priority (attempts cs o) <= Nat.max (priority o) 6)%nat.
Proof.
  unfold attempts.
  induction cs as [|c cs IH]; intro o; cbn [fold_left]; [lia |].
  destruct (IH (attempt o c)) as [Hlo Hhi].
  assert (Hr : (rank (fst c) <= 6)%nat) by (destruct c as [[] v]; cbn; lia).
  destruct (attempt_priority o c) as [He | [Hle He]]; lia.
Qed.

Lemma is_duplicate_attempts (k : kind) (cs : list fragment) (o : CSSSelector) :
  is_duplicate k o = true -> is_duplicate k (attempts cs o) = true.
Proof.
  destruct k; cbn [is_duplicate]; intro H; try discriminate H.
  - rewrite attempts_elementValue, first_truthy_cons, H. exact H.
  - rewrite attempts_idValue, first_truthy_cons, H. exact H.
  - rewrite attempts_pseudoElementValue, first_truthy_cons, H. exact H.
Qed.

Lemma is_normal_invoke (c : fragment) (o : CSSSelector) :
  is_normal (fst (invoke c o))
  = negb (is_duplicate (fst c) o) && (priority o <=? rank (fst c))%nat.
Proof.
  rewrite invoke_eq.
  destruct (is_duplicate (fst c) o); [reflexivity |].
  destruct (priority o <=? rank (fst c))%nat; reflexivity.
Qed.

End AttemptsFacts.

Lemma attempts_plural (cs : list fragment) :
  forall o,
    CSSSelector.classValues (attempts cs o)
    = (CSSSelector.classValues o ++ values Class cs)%list
    /\ CSSSelector.attrValues (attempts cs o)
       = (CSSSelector.attrValues o ++ values Attr cs)%list
    /\ CSSSelector.pseudoClassValues (attempts cs o)
       = (CSSSelector.pseudoClassValues o ++ values PseudoClass cs)%list.
Proof.
  unfold attempts.
  induction cs as [|c cs IH]; intro o; cbn [fold_left].
  - unfold values. cbn. rewrite !app_nil_r. repeat split.
  - destruct (IH (attempt o c)) as (Hc & Ha & Hp).
    destruct (attempt_plural o c) as (Hc' & Ha' & Hp').
    rewrite Hc, Ha, Hp, Hc', Ha', Hp', <- !app_assoc, <- !values_cons.
    repeat split.
Qed.

(** X1: whatever fragment calls are made on a builder, and whether they
    return or throw, the class, attribute and pseudo-class lists afterwards
    are the lists before followed by the arguments of all the [class],
    [attr] and [pseudoClass] calls, in call order: entries are only ever
    appended, calls of other kinds leave a list alone, and a call rejected
    by the order check is recorded all the same. *)
Theorem plural_lists_record_every_call (cs : list fragment) (o : CSSSelector) :
  CSSSelector.classValues (attempts cs o)
  = (CSSSelector.classValues o ++ values Class cs)%list
  /\ CSSSelector.attrValues (attempts cs o)
     = (CSSSelector.attrValues o ++ values Attr cs)%list
  /\ CSSSelector.pseudoClassValues (attempts cs o)
     = (CSSSelector.pseudoClassValues o ++ values PseudoClass cs)%list.
Proof. apply attempts_plural. Qed.

(** X2: for element, id and pseudo-element the first non-empty value wins:
    after any fragment calls, returned or thrown, the stored element is the
    first non-empty string among the value stored before and the arguments
    of the [element] calls in call order, and the empty string if there is
    none; likewise for id and pseudo-element.  So a non-empty stored value
    is never overwritten. *)
Theorem singular_first_nonempty_wins (cs : list fragment) (o : CSSSelector) :
  CSSSelector.elementValue (attempts cs o)
  = first_truthy (CSSSelector.elementValue o :: values Element cs)
  /\ CSSSelector.idValue (attempts cs o)
     = first_truthy (CSSSelector.idValue o :: values Id cs)
  /\ CSSSelector.pseudoElementValue (attempts cs o)
     = first_truthy (CSSSelector.pseudoElementValue o :: values PseudoElement cs)
  /\ (truthy (CSSSelector.elementValue o) = true ->
      CSSSelector.elementValue (attempts cs o) = CSSSelector.elementValue o)
  /\ (truthy (CSSSelector.idValue o) = true ->
      CSSSelector.idValue (attempts cs o) = CSSSelector.idValue o)
  /\ (truthy (CSSSelector.pseudoElementValue o) = true ->
      CSSSelector.pseudoElementValue (attempts cs o) = CSSSelector.pseudoElementValue o).
Proof.
  rewrite attempts_elementValue, attempts_idValue, attempts_pseudoElementValue.
  repeat split; intro H; rewrite first_truthy_cons, H; reflexivity.
Qed.

Lemma singular_first_nonempty_wins_witness :
  CSSSelector.elementValue
    (attempts [(Element, ""); (Class, "c"); (Element, "div"); (Element, "span")] constructor)
  = "div"
  /\ CSSSelector.idValue
       (attempts [(Id, "other"); (Id, "")]
          (attempts [(Id, "main")] constructor))
     = "main".
Proof.
  split.
  - apply (proj1 (singular_first_nonempty_wins
                    [(Element, ""); (Class, "c"); (Element, "div"); (Element, "span")]
                    constructor)).
  - apply (proj1 (proj2 (proj2 (proj2 (proj2
             (singular_first_nonempty_wins [(Id, "other"); (Id, "")]
                (attempts [(Id, "main")] constructor))))))).
    reflexivity.
Defined.

(** X3: the priority of a builder never goes down, whatever calls are made
    on it and whether they return or throw; it never exceeds the larger of
    its earlier value and 6, so on a new builder it stays at most 6. *)
Theorem priority_never_decreases (cs : list fragment) (o : CSSSelector) :
  (CSSSelector.priority o <= CSSSelector.priority (attempts cs o))%nat
  /\ (CSSSelector.priority (attempts cs o) <= Nat.max (CSSSelector.priority o) 6)%nat
  /\ (CSSSelector.priority (attempts cs constructor) <= 6)%nat.
Proof.
  destruct (attempts_priority_bounds cs o) as [Hlo Hhi].
  destruct (attempts_priority_bounds cs constructor) as [_ Hc].
  cbn in Hc. repeat split; assumption.
Qed.

(** X4: a failure is permanent.  If a call of some kind throws on a builder,
    then after any further fragment calls on that builder, returned or
    thrown, every call of that kind, with any argument, throws again. *)
Theorem failure_is_permanent (o : CSSSelector) (k : kind) (v : string) :
  is_normal (fst (invoke (k, v) o)) = false ->
  forall (cs : list fragment) (w : string),
    is_normal (fst (invoke (k, w) (attempts cs o))) = false.
Proof.
  intros H cs w. rewrite is_normal_invoke in *. cbn [fst] in *.
  destruct (is_duplicate k o) eqn:Hd.
  - rewrite (is_duplicate_attempts k cs o Hd). reflexivity.
  - cbn [negb andb] in H. apply Nat.leb_gt in H.
    destruct (attempts_priority_bounds cs o) as [Hlo _].
    apply andb_false_iff. right. apply Nat.leb_gt. lia.
Qed.

Lemma failure_is_permanent_witness :
  is_normal (fst (invoke (Id, "late")
                    (attempts [(Attr, "x"); (Element, "e"); (PseudoElement, "after")]
                       (snd (invoke (Class, "c") constructor)))))
  = false.
Proof.
  apply (failure_is_permanent (snd (invoke (Class, "c") constructor)) Id "main").
  reflexivity.
Defined.

(** X5: the pseudo-element closes the builder.  After a [pseudoElement] call
    with a non-empty value has returned, every fragment call on that
    builder throws, now and after any further calls. *)
Theorem pseudo_element_is_terminal (o : CSSSelector) (v : string) :
  fst (invoke (PseudoElement, v) o) = Normal tt ->
  truthy v = true ->
  forall (cs : list fragment) (c : fragment),
    is_normal (fst (invoke c (attempts cs (snd (invoke (PseudoElement, v) o))))) = false.
Proof.
  intros Hn Hv cs c.
  rewrite (invoke_normal_state _ _ Hn).
  set (o1 := CSSSelector.set_priority (rank (fst (PseudoElement, v)))
               (store (PseudoElement, v) o)).
  assert (Hp : (6 <= CSSSelector.priority (attempts cs o1))%nat).
  { destruct (attempts_priority_bounds cs o1) as [Hlo _]. exact Hlo. }
  assert (Hd : is_duplicate PseudoElement (attempts cs o1) = true).
  { apply is_duplicate_attempts. exact Hv. }
  rewrite is_normal_invoke. destruct c as [k w]. cbn [fst].
  destruct k; try (apply andb_false_iff; right; apply Nat.leb_gt; cbn; lia).
  rewrite Hd. reflexivity.
Qed.

Lemma pseudo_element_is_terminal_witness :
  is_normal (fst (invoke (Class, "c")
                    (attempts [(PseudoClass, "hover")]
                       (snd (invoke (PseudoElement, "after")
                               (snd (invoke (Element, "p") constructor)))))))
  = false.
Proof.
  apply (pseudo_element_is_terminal (snd (invoke (Element, "p") constructor)) "after");
    reflexivity.
Defined.

(** ** Which chains return *)

Section ChainReturns.
Import CSSSelector.

Lemma all_but_last_empty_cons2 (x y : string) (l : list string) :
  all_but_last_empty (x :: y :: l) = negb (truthy x) && all_but_last_empty (y :: l).
Proof. reflexivity. Qed.

Lemma all_but_last_empty_blank (l : list string) :
  all_but_last_empty ("" :: l) = all_but_last_empty l.
Proof. destruct l; reflexivity. Qed.

Lemma all_but_last_empty_iff (l : list string) :
  all_but_last_empty l = true <-> (forall v, In v (removelast l) -> v = "").
Proof.
  induction l as [|x l IH]; [split; [intros _ v [] | reflexivity] |].
  destruct l as [|y l]; [split; [intros _ v [] | reflexivity] |].
  rewrite all_but_last_empty_cons2, andb_true_iff, IH.
  change (removelast (x :: y :: l)) with (x :: removelast (y :: l)).
  split.
  - intros [Hx Hr] v [Hv | Hv]; [| apply Hr; exact Hv].
    subst v. destruct x; [reflexivity | discriminate Hx].
  - intro H. split.
    + rewrite (H x (or_introl eq_refl)). reflexivity.
    + intros v Hv. apply H. right. exact Hv.
Qed.

Lemma Sorted_ordered_from (cs : list fragment) :
  forall p : nat,
    ordered_from p cs = true ->
    Sorted le (map (fun c => rank (fst c)) cs)
    /\ HdRel le p (map (fun c => rank (fst c)) cs).
Proof.
  induction cs as [|c cs IH]; intros p H; [split; constructor |].
  cbn [ordered_from] in H. apply andb_true_iff in H. destruct H as [Hp H].
  destruct (IH _ H) as [Hs Hh]. apply Nat.leb_le in Hp.
  cbn [map]. split; constructor; assumption.
Qed.

(** Whether a chain returns, as a test on the builder and the calls. *)
Lemma chain_is_normal (cs : list fragment) :
  forall o, is_normal (fst (chain cs o)) = chain_returns o cs.
Proof.
  induction cs as [|[k v] cs IH]; intro o; [reflexivity |].
  cbn [chain]. unfold bind. rewrite invoke_eq. cbn [fst].
  unfold chain_returns. cbn [ordered_from fst].
  destruct k;
    rewrite ?values_cons_same, ?values_cons_other by reflexivity;
    rewrite ?all_but_last_empty_cons2;
    cbn [is_duplicate];
    repeat match goal with
           | |- context [truthy (?f o)] => destruct (truthy (f o))
           end;
    destruct (priority o <=? _)%nat;
    cbn [fst negb andb is_normal];
    rewrite ?IH; unfold chain_returns, accept, store;
    cbn [fst snd priority elementValue idValue pseudoElementValue
         set_priority set_elementValue set_idValue push_classValues
         push_attrValues push_pseudoClassValues set_pseudoElementValue];
    repeat match goal with
           | |- context [all_but_last_empty ?l] => destruct (all_but_last_empty l)
           | |- context [ordered_from ?p ?l] => destruct (ordered_from p l)
           end;
    reflexivity.
Qed.

Lemma chain_normal_state (cs : list fragment) :
  forall o,
    is_normal (fst (chain cs o)) = true ->
    chain cs o = (Normal tt, fold_left accept cs o).
Proof.
  induction cs as [|c cs IH]; intros o H; [reflexivity |].
  cbn [chain fold_left] in *. unfold bind in *. rewrite invoke_eq in *.
  destruct (is_duplicate (fst c) o); [discriminate H |].
  destruct (priority o <=? rank (fst c))%nat; [| discriminate H].
  apply IH. exact H.
Qed.

Lemma write_once_as_is (l : list string) :
  all_but_last_empty l = true ->
  (if truthy (last l "") then last l "" else "") = concat_map (fun v => v) l.
Proof.
  induction l as [|x l IH]; intro H; [reflexivity |].
  destruct l as [|y l].
  - cbn. rewrite append_nil_r. destruct x; reflexivity.
  - rewrite all_but_last_empty_cons2 in H. apply andb_true_iff in H.
    destruct H as [Hx H]. destruct x; [| discriminate Hx].
    change (last ("" :: y :: l) "") with (last (y :: l) "").
    rewrite (IH H). reflexivity.
Qed.

Lemma write_once_prefixed (p : string) (l : list string) :
  all_but_last_empty l = true ->
  (if truthy (last l "") then p ++ last l "" else "")
  = concat_map (fun v => p ++ v) (filter truthy l).
Proof.
  induction l as [|x l IH]; intro H; [reflexivity |].
  destruct l as [|y l].
  - cbn [last filter]. destruct (truthy x); [| reflexivity].
    cbn. now rewrite append_nil_r.
  - rewrite all_but_last_empty_cons2 in H. apply andb_true_iff in H.
    destruct H as [Hx H]. destruct x; [| discriminate Hx].
    change (last ("" :: y :: l) "") with (last (y :: l) "").
    rewrite (IH H). reflexivity.
Qed.

Lemma text_of_returned_chain (cs : list fragment) :
  chain_returns constructor cs = true ->
  text (fold_left accept cs constructor) = code_render cs.
Proof.
  unfold chain_returns. unfold constructor at 2 3 4.
  cbn [elementValue idValue pseudoElementValue].
  rewrite !all_but_last_empty_blank, !andb_true_iff.
  intros [[[_ He] Hi] Hp].
  destruct (accept_fields cs constructor) as (Fe & Fi & Fc & Fa & Fp & Fq & _).
  unfold text, code_render. rewrite Fe, Fi, Fc, Fa, Fp, Fq.
  unfold constructor.
  cbn [elementValue idValue classValues attrValues pseudoClassValues
       pseudoElementValue app].
  rewrite (write_once_as_is _ He), (write_once_prefixed "#" _ Hi),
    (write_once_prefixed "::" _ Hp).
  reflexivity.
Qed.

End ChainReturns.

Lemma is_normal_unit (r : completion unit) : r = Normal tt <-> is_normal r = true.
Proof.
  destruct r as [[]|e]; cbn; split; intro H; try reflexivity; discriminate H.
Qed.

(** X6: a chain of fragment calls on a new builder returns without an error
    exactly when the ranks of its calls never go down and, for each of
    element, id and pseudo-element, every call of that kind but the last one
    passes the empty string. *)
Theorem chain_returns_iff (cs : list fragment) :
  fst (chain cs constructor) = Normal tt
  <-> Sorted le (map (fun c => rank (fst c)) cs)
      /\ (forall v, In v (removelast (values Element cs)) -> v = "")
      /\ (forall v, In v (removelast (values Id cs)) -> v = "")
      /\ (forall v, In v (removelast (values PseudoElement cs)) -> v = "").
Proof.
  rewrite is_normal_unit, chain_is_normal. unfold chain_returns.
  unfold constructor at 1 2 3 4.
  cbn [CSSSelector.priority CSSSelector.elementValue CSSSelector.idValue
       CSSSelector.pseudoElementValue].
  rewrite !all_but_last_empty_blank, !andb_true_iff, !all_but_last_empty_iff.
  split.
  - intros [[[Ho He] Hi] Hp]. apply Sorted_ordered_from in Ho.
    destruct Ho as [Hs _]. auto.
  - intros (Hs & He & Hi & Hp). repeat split; try assumption.
    apply ordered_from_Sorted; [exact Hs |]. destruct cs; constructor. lia.
Qed.

(** X7: whenever a chain of fragment calls on a new builder returns,
    [stringify()] on the builder returns the groups in kind order: the
    element, the id behind [#] and the pseudo-element behind [::] when they
    are not the empty string, every class behind [.], every attribute
    between brackets and every pseudo-class behind [:], in call order. *)
Theorem returned_chain_renders (cs : list fragment) :
  fst (chain cs constructor) = Normal tt ->
  render (snd (chain cs constructor)) = Normal (code_render cs).
Proof.
  intro H. apply is_normal_unit in H.
  rewrite (chain_normal_state cs constructor H). cbn [snd].
  rewrite chain_is_normal in H.
  rewrite render_eq.
  destruct (accept_fields cs constructor) as (_ & _ & _ & _ & _ & _ & Fs).
  rewrite Fs. cbn [CSSSelector.own_stringify constructor].
  f_equal. apply text_of_returned_chain. exact H.
Qed.

Lemma returned_chain_renders_witness :
  render (snd (chain [(Element, ""); (Element, "div"); (Id, ""); (Class, "a");
                      (Class, ""); (Attr, "x=1")] constructor))
  = Normal "div.a.[x=1]".
Proof.
  apply (returned_chain_renders
           [(Element, ""); (Element, "div"); (Id, ""); (Class, "a");
            (Class, ""); (Attr, "x=1")]).
  reflexivity.
Defined.

(** ** The facade's entry points *)

(** X8: every entry point of the facade returns a builder for every value,
    never an error; the builder's priority is the rank of the entry point
    and it renders the one fragment: [v] for [element], [.v] for [class],
    [[v]] for [attr], [:v] for [pseudoClass], and [#v] for [id] and [::v]
    for [pseudoElement] unless [v] is the empty string, for which these two
    render nothing. *)
Theorem facade_always_returns (k : kind) (v : string) :
  exists o : CSSSelector,
    facade k v = Normal o
    /\ CSSSelector.priority o = rank k
    /\ render o = Normal (single_fragment k v).
Proof.
  destruct k; eexists; (split; [reflexivity |]); (split; [reflexivity |]);
    rewrite render_eq; cbn [CSSSelector.own_stringify]; f_equal;
    unfold text; cbn; destruct v; cbn; rewrite ?append_nil_r; reflexivity.
Qed.

(** ** combine *)

Section CombineFacts.
Import CSSSelector.

Lemma invoke_set_stringify (f : unit -> string) (c : fragment) (o : CSSSelector) :
  invoke c (set_stringify f o)
  = (fst (invoke c o), set_stringify f (snd (invoke c o))).
Proof.
  rewrite !invoke_eq.
  replace (is_duplicate (fst c) (set_stringify f o)) with (is_duplicate (fst c) o)
    by (destruct c as [[] v]; reflexivity).
  replace (store c (set_stringify f o)) with (set_stringify f (store c o))
    by (destruct c as [[] v]; reflexivity).
  cbn [priority set_stringify].
  destruct (is_duplicate (fst c) o); [reflexivity |].
  destruct (priority o <=? rank (fst c))%nat; reflexivity.
Qed.

Lemma chain_set_stringify (f : unit -> string) (cs : list fragment) :
  forall o,
    chain cs (set_stringify f o)
    = (fst (chain cs o), set_stringify f (snd (chain cs o))).
Proof.
  induction cs as [|c cs IH]; intro o; [reflexivity |].
  cbn [chain]. unfold bind. rewrite invoke_set_stringify.
  destruct (invoke c o) as [[[]|e] o']; cbn [fst snd]; [apply IH | reflexivity].
Qed.

End CombineFacts.

(** X9: nesting does not matter to the rendering of [combine]: combining
    [a] and [b] first and the result with [c] renders the same string as
    combining [a] with the combination of [b] and [c], namely the three
    renderings with the two tokens between them, one space on each side of
    each token. *)
Theorem combine_render_assoc (a b c : CSSSelector) (t u : string) :
  exists ra rb rc : string,
    render a = Normal ra /\ render b = Normal rb /\ render c = Normal rc
    /\ cbind (cbind (cssSelectorBuilder.combine a t b)
                (fun ab => cssSelectorBuilder.combine ab u c)) render
       = Normal (ra ++ " " ++ t ++ " " ++ rb ++ " " ++ u ++ " " ++ rc)
    /\ cbind (cbind (cssSelectorBuilder.combine b u c)
                (fun bc => cssSelectorBuilder.combine a t bc)) render
       = Normal (ra ++ " " ++ t ++ " " ++ rb ++ " " ++ u ++ " " ++ rc).
Proof.
  destruct (render_total a) as [ra Ha], (render_total b) as [rb Hb],
    (render_total c) as [rc Hc].
  exists ra, rb, rc. repeat (split; [assumption |]).
  rewrite (@combine_eq a b t ra rb Ha Hb), (@combine_eq b c u rb rc Hb Hc).
  cbn [cbind].
  split.
  - erewrite combine_eq; [| apply render_eq | exact Hc].
    cbn [cbind CSSSelector.own_stringify CSSSelector.set_stringify].
    rewrite render_eq.
    cbn [CSSSelector.own_stringify CSSSelector.set_stringify].
    now rewrite !append_assoc.
  - erewrite combine_eq; [| exact Ha | apply render_eq].
    cbn [cbind CSSSelector.own_stringify CSSSelector.set_stringify].
    rewrite render_eq. reflexivity.
Qed.

(** X10: a combined selector takes fragment calls by the rules of a new
    builder: a chain of calls on the object [combine] returned returns or
    throws, with the same error, exactly as the same chain on a new builder
    does. *)
Theorem combined_accepts_like_new (l r : CSSSelector) (t : string) (cs : list fragment) :
  exists c : CSSSelector,
    cssSelectorBuilder.combine l t r = Normal c
    /\ fst (chain cs c) = fst (chain cs constructor).
Proof.
  destruct (render_total l) as [rl Hl], (render_total r) as [rr Hr].
  eexists. split; [apply combine_eq; eassumption |].
  rewrite chain_set_stringify. reflexivity.
Qed.

(** ** What a builder shows *)

Section RenderFacts.
Import CSSSelector.

Lemma append_eq_empty (s t : string) : s ++ t = "" <-> s = "" /\ t = "".
Proof.
  destruct s; cbn; split.
  - intro H. split; [reflexivity | exact H].
  - intros [_ H]. exact H.
  - intro H. discriminate H.
  - intros [H _]. discriminate H.
Qed.

Lemma optional_group_empty (p e : string) :
  (if truthy e then p ++ e else "") = "" <-> e = "".
Proof.
  destruct e as [|a e]; cbn [truthy]; split; intro H; try reflexivity.
  - apply append_eq_empty in H. destruct H as [_ H]. discriminate H.
  - discriminate H.
Qed.

Lemma concat_map_empty (f : string -> string) (l : list string) :
  (forall v, f v <> "") -> concat_map f l = "" <-> l = [].
Proof.
  intro Hf. destruct l as [|x l]; cbn; split; intro H; try reflexivity.
  - apply append_eq_empty in H. destruct H as [H _]. destruct (Hf x H).
  - discriminate H.
Qed.

Lemma text_empty_iff (o : CSSSelector) :
  text o = ""
  <-> elementValue o = "" /\ idValue o = "" /\ classValues o = []
      /\ attrValues o = [] /\ pseudoClassValues o = [] /\ pseudoElementValue o = "".
Proof.
  unfold text.
  rewrite !append_eq_empty.
  rewrite (optional_group_empty "" (elementValue o)).
  rewrite (optional_group_empty "#" (idValue o)).
  rewrite (optional_group_empty "::" (pseudoElementValue o)).
  rewrite !concat_map_empty; [tauto | | |]; intros v H; discriminate H.
Qed.

Lemma single_fragment_Element (e : string) :
  (if truthy e then e else "") = single_fragment Element e.
Proof. destruct e; reflexivity. Qed.

Lemma first_truthy_blank (l : list string) : first_truthy ("" :: l) = first_truthy l.
Proof. apply first_truthy_cons. Qed.

End RenderFacts.

(** X11: a builder that is not a combined selector renders the empty string
    exactly when it holds nothing: element, id and pseudo-element are the
    empty string and the class, attribute and pseudo-class lists are
    empty.  A stored class, attribute or pseudo-class always shows, even
    when it is the empty string. *)
Theorem render_empty_iff (o : CSSSelector) :
  CSSSelector.own_stringify o = None ->
  (render o = Normal ""
   <-> CSSSelector.elementValue o = "" /\ CSSSelector.idValue o = ""
       /\ CSSSelector.classValues o = [] /\ CSSSelector.attrValues o = []
       /\ CSSSelector.pseudoClassValues o = []
       /\ CSSSelector.pseudoElementValue o = "").
Proof.
  intro Hown. rewrite render_eq, Hown, <- text_empty_iff.
  split; intro H; [injection H as H; exact H | now rewrite H].
Qed.

Lemma render_empty_iff_witness :
  render (snd (invoke (Id, "") (snd (invoke (Element, "") constructor)))) = Normal ""
  <-> "" = "" /\ "" = "" /\ @nil string = [] /\ @nil string = []
      /\ @nil string = [] /\ "" = "".
Proof.
  apply (render_empty_iff (snd (invoke (Id, "") (snd (invoke (Element, "") constructor))))).
  reflexivity.
Defined.

(** X12: what a new builder shows after any history of fragment calls, each
    error caught: [stringify()] returns, in kind order, the first non-empty
    argument ever passed to [element], the first non-empty argument passed
    to [id] behind [#], every argument passed to [class] behind [.], to
    [attr] between brackets and to [pseudoClass] behind [:], in call order,
    and the first non-empty argument passed to [pseudoElement] behind
    [::].  The arguments of calls that threw the order error are among
    them. *)
Theorem render_after_any_calls (cs : list fragment) :
  render (attempts cs constructor) = Normal (history_render cs).
Proof.
  rewrite render_eq, attempts_own_stringify. cbn [CSSSelector.own_stringify constructor].
  f_equal. unfold text, history_render.
  destruct (attempts_plural cs constructor) as (Hc & Ha & Hp).
  rewrite Hc, Ha, Hp, attempts_elementValue, attempts_idValue,
    attempts_pseudoElementValue.
  unfold constructor.
  cbn [CSSSelector.elementValue CSSSelector.idValue CSSSelector.classValues
       CSSSelector.attrValues CSSSelector.pseudoClassValues
       CSSSelector.pseudoElementValue app].
  rewrite !first_truthy_blank, single_fragment_Element. reflexivity.
Qed.

(** A history with two rejected calls: [id] after [class] throws the order
    error and is shown, the second [element] throws the duplicate error and
    is not. *)
Example render_after_rejected_calls :
  render (attempts [(Element, "p"); (Class, "a"); (Id, "late"); (Element, "q")] constructor)
  = Normal "p#late.a".
Proof. reflexivity. Qed.
